(** * v1optoSSN: a stabilized supralinear network on a 2D neuron grid

    Shallow embedding of [models/ssn_model.py], [models/visual_stimulus.py],
    [models/optogenetic_stimulus.py] and the time configuration of [main.py]
    and [config.py]; further on, of the cropping of [utils/file_loader.py],
    of [utils/gcamp_conversion.py], and of the sweep of [main.py] with the
    lookup of [utils/plotting.py].  File access, plotting and the random
    draws of [models/neuron_layer.py] are not embedded.

    Modelling conventions.
    - A 2-D numpy array is a list of rows, [list (list R)]; the trace (a 3-D
      array indexed [i, j, t]) is a list of rows of per-cell time series.
      Arrays with zero rows lose their column count in this representation.
    - Array arithmetic is carried out over the real numbers [R]: rounding,
      overflow, [inf] and [nan] of binary64 are not represented.  Where numpy
      would produce [inf] or [nan] (a division by zero, [0 ** n] for [n < 0])
      the model has no faithful value, and every statement that could reach
      such a point carries the hypothesis that excludes it.
    - The stepping loop of [run_trial] is embedded a second time in binary64
      (module [Binary64]), with the rounding, the overflow and the nan of the
      code: the sign of the trace is settled there.
    - The scalar time configuration ([trial_duration], [bin_size]) is kept in
      binary64 ([PrimFloat]), because [int(trial_duration / bin_size)] is
      decided by the rounding of the quotient.
    - A Python exception is a [Raise] outcome of the [result] type. *)

From Stdlib Require Import Floats.
From Stdlib Require Import ZArith Reals Lra Lia List Bool.
From Stdlib Require Import Permutation Finite.
Import ListNotations.

Set Warnings "-inexact-float".

(** ** Outcomes of Python code *)

Inductive exn : Set :=
| ValueError
| ZeroDivisionError
| OverflowError
| IndexError.

Inductive result (A : Type) : Type :=
| Ok (a : A)
| Raise (e : exn).

Arguments Ok {A} a.
Arguments Raise {A} e.

Definition bind {A B : Type} (r : result A) (k : A -> result B) : result B :=
  match r with
  | Ok a => k a
  | Raise e => Raise e
  end.

Declare Scope result_scope.
Delimit Scope result_scope with result.
Notation "x <- c ;; k" := (bind c (fun x => k))
  (at level 61, c at next level, right associativity) : result_scope.
Notation "' pat <- c ;; k" := (bind c (fun x => match x with pat => k end))
  (at level 61, pat pattern, c at next level, right associativity) : result_scope.
Open Scope result_scope.

(** ** Python scalars: true division of floats and [int()] *)

Module Py.

(** [a / b] on Python floats: [ZeroDivisionError] when [b] is [0.0] or
    [-0.0], the binary64 quotient otherwise. *)
Definition truediv (a b : float) : result float :=
  if PrimFloat.eqb b 0%float then Raise ZeroDivisionError
  else Ok (PrimFloat.div a b).

(** [int(x)]: truncation toward zero; [OverflowError] on an infinity and
    [ValueError] on a nan. *)
Definition int (x : float) : result Z :=
  match Prim2SF x with
  | S754_zero _ => Ok 0%Z
  | S754_finite s m e =>
      let v := Z.shiftl (Z.pos m) e in
      Ok (if s then (- v)%Z else v)
  | S754_infinity _ => Raise OverflowError
  | S754_nan => Raise ValueError
  end.

End Py.

(** ** numpy and scipy operations used by the model *)

Module Np.

Open Scope R_scope.

Definition grid : Type := list (list R).
Definition array3 : Type := list (list (list R)).

Definition get (A : grid) (i j : nat) : R := nth j (nth i A []) 0.

Definition get3 (A : array3) (i j k : nat) : R :=
  nth k (nth j (nth i A []) []) 0.

Definition shape (A : grid) : nat * nat := (length A, length (hd [] A)).

Definition shape3 (A : array3) : nat * nat * nat :=
  (length A, length (hd [] A), length (hd [] (hd [] A))).

Definition tabulate (r c : nat) (f : nat -> nat -> R) : grid :=
  map (fun i => map (f i) (seq 0 c)) (seq 0 r).

Definition tabulate3 (r c t : nat) (f : nat -> nat -> nat -> R) : array3 :=
  map (fun i => map (fun j => map (f i j) (seq 0 t)) (seq 0 c)) (seq 0 r).

(** [np.zeros((r, c))] *)
Definition zeros (r c : nat) : grid := tabulate r c (fun _ _ => 0).

(** [np.zeros((r, c, t))]: a negative dimension is a [ValueError]. *)
Definition zeros3 (r c : nat) (t : Z) : result array3 :=
  if (t <? 0)%Z then Raise ValueError
  else Ok (tabulate3 r c (Z.to_nat t) (fun _ _ _ => 0)).

(** An elementwise operation with a scalar. *)
Definition map_grid (f : R -> R) (A : grid) : grid := map (map f) A.

(** Broadcasting of one axis: equal lengths, or one of them is 1. *)
Definition broadcast_dim (a b : nat) : result nat :=
  if a =? b then Ok a
  else if a =? 1 then Ok b
  else if b =? 1 then Ok a
  else Raise ValueError.

(** The index read on an axis of length [dim] for output index [i]. *)
Definition bidx (dim i : nat) : nat := if dim =? 1 then 0%nat else i.

(** An elementwise binary operation on two 2-D arrays, with broadcasting. *)
Definition broadcast2 (f : R -> R -> R) (A B : grid) : result grid :=
  let '(ra, ca) := shape A in
  let '(rb, cb) := shape B in
  r <- broadcast_dim ra rb ;;
  c <- broadcast_dim ca cb ;;
  Ok (tabulate r c (fun i j =>
        f (get A (bidx ra i) (bidx ca j)) (get B (bidx rb i) (bidx cb j)))).

Definition add : grid -> grid -> result grid := broadcast2 Rplus.
Definition subtract : grid -> grid -> result grid := broadcast2 Rminus.
Definition multiply : grid -> grid -> result grid := broadcast2 Rmult.

(** [np.sum(A)] *)
Definition sum (A : grid) : R :=
  fold_right Rplus 0 (map (fold_right Rplus 0) A).

(** [np.max(A)]: a [ValueError] on an array without elements. *)
Definition amax (A : grid) : result R :=
  match concat A with
  | [] => Raise ValueError
  | x :: xs => Ok (fold_left Rmax xs x)
  end.

(** [A[i, j]] with non-negative indices. *)
Definition lookup (A : grid) (i j : nat) : result R :=
  match nth_error A i with
  | Some row =>
      match nth_error row j with
      | Some v => Ok v
      | None => Raise IndexError
      end
  | None => Raise IndexError
  end.

Definition deg2rad (d : R) : R := d * (PI / 180).

(** [np.linspace(start, stop, num)] *)
Definition linspace (start stop : R) (num : nat) : list R :=
  match num with
  | 1%nat => [start]
  | _ => map (fun k => start + INR k * ((stop - start) / INR (num - 1)))
             (seq 0 num)
  end.

(** [x ** n] for a base [x >= 0]: [0 ** 0 = 1], [0 ** n = 0] for [n > 0].
    numpy yields [inf] for [0 ** n] with [n < 0]; that value is outside the
    model and the statements below assume [0 <= n] or [0 < n]. *)
Definition power (x n : R) : R :=
  if Req_EM_T x 0 then (if Req_EM_T n 0 then 1 else 0) else Rpower x n.

(** [activity[:, :, t] = G]: the value is broadcast to the spatial shape. *)
Definition set_last_axis (A : array3) (t : nat) (G : grid) : result array3 :=
  let '(r, c, tb) := shape3 A in
  let '(rg, cg) := shape G in
  if ((rg =? r) || (rg =? 1)) && ((cg =? c) || (cg =? 1)) then
    Ok (tabulate3 r c tb (fun i j k =>
          if k =? t then get G (bidx rg i) (bidx cg j) else get3 A i j k))
  else Raise ValueError.

(** Index [i] wrapped into an axis of length [n]. *)
Definition wrap (i : Z) (n : nat) : nat := Z.to_nat (i mod Z.of_nat n).

(** [scipy.signal.convolve2d(in1, in2, mode='same', boundary='wrap')].
    The output has the shape of [in1]; cell [(m, n)] accumulates, for the
    kernel rows [j] and columns [k] in increasing order,
    [in1[m + (kr-1)/2 - j, n + (kc-1)/2 - k] * in2[j, k]], the indices into
    [in1] taken circularly. *)
Definition convolve2d_same_wrap (in1 in2 : grid) : grid :=
  let '(r, c) := shape in1 in
  let '(kr, kc) := shape in2 in
  tabulate r c (fun m n =>
    fold_left (fun acc j =>
      fold_left (fun acc' k =>
        acc' + get in1
                 (wrap (Z.of_nat m + Z.of_nat ((kr - 1) / 2) - Z.of_nat j) r)
                 (wrap (Z.of_nat n + Z.of_nat ((kc - 1) / 2) - Z.of_nat k) c)
               * get in2 j k)
        (seq 0 kc) acc)
      (seq 0 kr) 0).

(** [np.roll(A, (s, t), axis=(0, 1))]: the circular shift of the two
    spatial axes. *)
Definition roll (A : grid) (s t : Z) : grid :=
  let '(r, c) := shape A in
  tabulate r c (fun i j =>
    get A (wrap (Z.of_nat i - s) r) (wrap (Z.of_nat j - t) c)).

(** All rows of [A] have length [c] and there are [r] of them. *)
Definition rect (r c : nat) (A : grid) : Prop :=
  length A = r /\ Forall (fun row => length row = c) A.

Definition all_cells (P : R -> Prop) (A : grid) : Prop :=
  Forall (Forall P) A.

Definition all_cells3 (P : R -> Prop) (A : array3) : Prop :=
  Forall (Forall (Forall P)) A.

Definition rect3 (r c t : nat) (A : array3) : Prop :=
  length A = r /\
  Forall (fun row => length row = c /\ Forall (fun ts => length ts = t) row) A.

End Np.

(** ** models/visual_stimulus.py *)

Module VisualStimulus.

Import Np.
Open Scope R_scope.

Record t : Type := {
  orientation : R;
  spatial_frequency : R;
  contrast : R;
  size : R;
  onset : R
}.

(** [VisualStimulus.generate_input]: a Gabor pattern on the grid
    [[-1, 1] x [-1, 1]], scaled by the contrast. *)
Definition generate_input (self : t) (grid_size : nat * nat) : grid :=
  let '(rows, cols) := grid_size in
  let xs := linspace (-1) 1 cols in
  let ys := linspace (-1) 1 rows in
  let theta := deg2rad (orientation self) in
  tabulate rows cols (fun i j =>
    let x := nth j xs 0 in
    let y := nth i ys 0 in
    let x_theta := x * cos theta + y * sin theta in
    let gabor :=
      exp (- (x ^ 2 + y ^ 2) / (2 * size self ^ 2))
      * cos (2 * PI * spatial_frequency self * x_theta) in
    contrast self * gabor).

End VisualStimulus.

(** ** models/optogenetic_stimulus.py *)

Module OptogeneticStimulus.

Import Np.
Open Scope R_scope.

Record t : Type := {
  column_tuning : R;
  num_columns : nat;
  column_area : R;
  power : R
}.

(** [mask.astype(float)] for [mask = (orientation_map == column_tuning)]. *)
Definition mask (self : t) (orientation_map : grid) : grid :=
  map_grid (fun v => if Req_EM_T v (column_tuning self) then 1 else 0)
           orientation_map.

(** [OptogeneticStimulus.generate_input]; [grid_size] is unpacked and not
    used. *)
Definition generate_input (self : t) (grid_size : nat * nat)
    (orientation_map : grid) : result grid :=
  let opto_input := map_grid (fun v => v * power self)
                             (mask self orientation_map) in
  m <- amax opto_input ;;
  if Rlt_dec 0 m then Ok (map_grid (fun v => v / m) opto_input)
  else Ok opto_input.

End OptogeneticStimulus.

(** ** models/ssn_model.py *)

Module SSNModel.

Import Np.
Open Scope R_scope.

Record t : Type := {
  orientation_map : grid;
  size : nat * nat;
  sigma_e : R;
  sigma_i : R;
  alpha : R;
  n : R;
  exc_conn : grid;
  inh_conn : grid
}.

(** Lines 35-48 of [create_ssn_connectivity]: the two kernels before
    normalization.  [np.meshgrid(np.arange(size_x), np.arange(size_y))] has
    shape [(size_y, size_x)], with [x[i, j] = j] and [y[i, j] = i]. *)
Definition unnormalized_kernels (orientation_map : grid)
    (sigma_e sigma_i : R) : result (grid * grid) :=
  let '(size_x, size_y) := shape orientation_map in
  let center := ((size_x / 2)%nat, (size_y / 2)%nat) in
  let distances := tabulate size_y size_x (fun i j =>
    sqrt ((INR j - INR (fst center)) ^ 2 + (INR i - INR (snd center)) ^ 2)) in
  c <- lookup orientation_map (fst center) (snd center) ;;
  let orientation_diff := map_grid (fun v => Rabs (v - c)) orientation_map in
  let orientation_similarity :=
    map_grid (fun d => cos (deg2rad d) ^ 2) orientation_diff in
  excitatory_kernel <-
    multiply (map_grid (fun d => exp ((- d ^ 2) / (2 * sigma_e ^ 2))) distances)
             orientation_similarity ;;
  inhibitory_kernel <-
    multiply (map_grid (fun d => exp ((- d ^ 2) / (2 * sigma_i ^ 2))) distances)
             orientation_similarity ;;
  Ok (excitatory_kernel, inhibitory_kernel).

(** One cell of an unnormalized kernel in closed form, for a map of shape
    [(r, c)] and a spread [sigma]: the Gaussian of the distance to the
    center times the squared cosine of the orientation difference
    ([unnormalized_kernels_cells] below relates it to the code). *)
Definition kernel_weight (orientation_map : grid) (r c : nat) (sigma : R)
    (i j : nat) : R :=
  exp ((- sqrt ((INR (bidx r j) - INR (r / 2)) ^ 2
                + (INR (bidx c i) - INR (c / 2)) ^ 2) ^ 2)
       / (2 * sigma ^ 2))
  * cos (deg2rad (Rabs (get orientation_map (bidx r i) (bidx c j)
                        - get orientation_map (r / 2) (c / 2)))) ^ 2.

(** [kernel /= np.sum(kernel)] *)
Definition normalize (kernel : grid) : grid :=
  map_grid (fun v => v / sum kernel) kernel.

Definition create_ssn_connectivity (orientation_map : grid)
    (sigma_e sigma_i : R) : result (grid * grid) :=
  '(excitatory_kernel, inhibitory_kernel) <-
    unnormalized_kernels orientation_map sigma_e sigma_i ;;
  Ok (normalize excitatory_kernel, normalize inhibitory_kernel).

(** [SSNModel.__init__] *)
Definition init (orientation_map : grid) (size : nat * nat)
    (sigma_e sigma_i alpha n : R) : result t :=
  '(e, i) <- create_ssn_connectivity orientation_map sigma_e sigma_i ;;
  Ok {| orientation_map := orientation_map; size := size;
        sigma_e := sigma_e; sigma_i := sigma_i; alpha := alpha; n := n;
        exc_conn := e; inh_conn := i |}.

Definition supralinear_transfer_function (self : t) (input_current : grid)
    : grid :=
  map_grid (fun x => power (Rmax 0 x) (n self)) input_current.

Definition apply_opsin_map (opto_input opsin_map : grid) : result grid :=
  multiply opto_input opsin_map.

Definition convolve_with_kernel (activity kernel : grid) : grid :=
  convolve2d_same_wrap activity kernel.

(** [int(trial_duration / bin_size)] *)
Definition time_bins (trial_duration bin_size : float) : result Z :=
  q <- Py.truediv trial_duration bin_size ;;
  Py.int q.

(** One pass through the body of the loop of [run_trial], up to the new
    [current_activity]. *)
Definition step (self : t) (visual_input opto_input current_activity : grid)
    : result grid :=
  let recurrent_exc := convolve_with_kernel current_activity (exc_conn self) in
  let recurrent_inh := convolve_with_kernel current_activity (inh_conn self) in
  s1 <- add visual_input opto_input ;;
  s2 <- add s1 recurrent_exc ;;
  total_input <- subtract s2 recurrent_inh ;;
  Ok (supralinear_transfer_function self total_input).

(** [for t in range(time_bins)]: the state and the trace are threaded
    through the iterations. *)
Fixpoint trial_loop (self : t) (visual_input opto_input : grid)
    (ts : list nat) (current_activity : grid) (activity : array3)
    : result array3 :=
  match ts with
  | [] => Ok activity
  | t :: ts' =>
      current_activity' <-
        step self visual_input opto_input current_activity ;;
      activity' <- set_last_axis activity t current_activity' ;;
      trial_loop self visual_input opto_input ts' current_activity' activity'
  end.

(** The optogenetic frame of a trial: generated from the orientation map,
    then scaled by the opsin map when one is given. *)
Definition opto_frame (self : t) (opto_stim : OptogeneticStimulus.t)
    (opsin_map : option grid) : result grid :=
  opto_input <-
    OptogeneticStimulus.generate_input opto_stim (size self)
                                       (orientation_map self) ;;
  match opsin_map with
  | Some m => apply_opsin_map opto_input m
  | None => Ok opto_input
  end.

Definition run_trial (self : t) (visual_stim : VisualStimulus.t)
    (opto_stim : OptogeneticStimulus.t) (trial_duration bin_size : float)
    (opsin_map : option grid) : result array3 :=
  time_bins <- time_bins trial_duration bin_size ;;
  activity <- zeros3 (fst (size self)) (snd (size self)) time_bins ;;
  let visual_input := VisualStimulus.generate_input visual_stim (size self) in
  opto_input <- opto_frame self opto_stim opsin_map ;;
  let current_activity := zeros (fst (size self)) (snd (size self)) in
  trial_loop self visual_input opto_input (seq 0 (Z.to_nat time_bins))
             current_activity activity.

End SSNModel.

(** ** config.py and main.py: the time configurations in use *)

Module Config.

Definition TRIAL_DURATION : float := 1.2%float.
Definition BIN_SIZE : float := 0.05%float.
Definition TIME_BINS : result Z := SSNModel.time_bins TRIAL_DURATION BIN_SIZE.
(** [CONVLSTM_PARAMS["num_frames"]], "Number of time frames per trial". *)
Definition num_frames : Z := 24.

End Config.

Module Main.

Definition trial_duration : float := 0.3%float.
Definition bin_size : float := 0.1%float.

End Main.

(** ** The end-to-end configuration of the specification *)

Module EndToEnd.

Import Np.
Open Scope R_scope.

(** An 8x8 orientation field of constant 0 degrees. *)
Definition orientation_field : grid := tabulate 8 8 (fun _ _ => 0).

(** The engine on that field with [sigma_e = 2], [sigma_i = 1], [n = 2],
    for a given pair of kernels. *)
Definition model_with (e i : grid) : SSNModel.t :=
  {| SSNModel.orientation_map := orientation_field;
     SSNModel.size := (8%nat, 8%nat);
     SSNModel.sigma_e := 2;
     SSNModel.sigma_i := 1;
     SSNModel.alpha := 1;
     SSNModel.n := 2;
     SSNModel.exc_conn := e;
     SSNModel.inh_conn := i |}.

(** The engine that [SSNModel.__init__] builds on that field. *)
Definition model : SSNModel.t :=
  model_with
    (SSNModel.normalize
       (tabulate 8 8 (SSNModel.kernel_weight orientation_field 8 8 2)))
    (SSNModel.normalize
       (tabulate 8 8 (SSNModel.kernel_weight orientation_field 8 8 1))).

(** A visual stimulus of contrast 0 and an optogenetic stimulus of power 0;
    the other parameters are those of [main.py]. *)
Definition visual_stim : VisualStimulus.t :=
  {| VisualStimulus.orientation := 0;
     VisualStimulus.spatial_frequency := 2;
     VisualStimulus.contrast := 0;
     VisualStimulus.size := 2;
     VisualStimulus.onset := 0 |}.

Definition opto_stim : OptogeneticStimulus.t :=
  {| OptogeneticStimulus.column_tuning := 0;
     OptogeneticStimulus.num_columns := 10;
     OptogeneticStimulus.column_area := 50;
     OptogeneticStimulus.power := 0 |}.

(** A trial shorter than one bin: 50 ms in bins of 100 ms. *)
Definition short_duration : float := 0.05%float.

End EndToEnd.

(** ** The sequence of states of a trial *)

Module Trajectory.

Import Np.

(** The state after [k] passes through the body of the loop of [run_trial],
    started from [current_activity]: the update alone, without the trace. *)
Fixpoint state_after (self : SSNModel.t) (visual_input opto_input : grid)
    (k : nat) (current_activity : grid) : result grid :=
  match k with
  | O => Ok current_activity
  | S k' =>
      current_activity' <-
        SSNModel.step self visual_input opto_input current_activity ;;
      state_after self visual_input opto_input k' current_activity'
  end.

End Trajectory.

(** ** utils/file_loader.py: cropping *)

Module FileLoader.

Import Np.

(** A bound [i] of a Python slice, for a sequence of length [len]: a
    negative bound counts from the end, and bounds are clipped. *)
Definition slice_bound (len i : Z) : Z :=
  if (i <? 0)%Z then Z.max (i + len) 0 else Z.min i len.

(** [l[start:stop]] *)
Definition slice {A : Type} (l : list A) (start stop : Z) : list A :=
  let len := Z.of_nat (length l) in
  let lo := slice_bound len start in
  let hi := slice_bound len stop in
  firstn (Z.to_nat (hi - lo)) (skipn (Z.to_nat lo) l).

(** The length of [l[start:stop]] for a sequence of length [len]. *)
Definition slice_length (len : nat) (start stop : Z) : nat :=
  Z.to_nat (slice_bound (Z.of_nat len) stop
            - slice_bound (Z.of_nat len) start).

(** [crop_to_central_region(map, central_size)]; the shape that is compared
    with [(central_size, central_size)] is the shape of the slice. *)
Definition crop_to_central_region (map : grid) (central_size : Z)
    : result grid :=
  let '(rows, cols) := shape map in
  let center_row := (Z.of_nat rows / 2)%Z in
  let center_col := (Z.of_nat cols / 2)%Z in
  let half_size := (central_size / 2)%Z in
  let row_start := (center_row - half_size)%Z in
  let row_end := (center_row + half_size)%Z in
  let col_start := (center_col - half_size)%Z in
  let col_end := (center_col + half_size)%Z in
  let cropped_map :=
    List.map (fun row => slice row col_start col_end)
             (slice map row_start row_end) in
  let cropped_shape :=
    (slice_length rows row_start row_end,
     slice_length cols col_start col_end) in
  if ((Z.of_nat (fst cropped_shape) =? central_size)%Z
      && (Z.of_nat (snd cropped_shape) =? central_size)%Z)%bool
  then Ok cropped_map
  else Raise ValueError.

End FileLoader.

(** ** utils/gcamp_conversion.py *)

Module GcampConversion.

Import Np.
Open Scope R_scope.

(** [spiking_data * expression_map[..., np.newaxis]]: the expression map,
    with a last axis of length 1, is broadcast over the time axis. *)
Definition convert_to_gcamp (spiking_data : array3) (expression_map : grid)
    : result array3 :=
  let '(a, b, t) := shape3 spiking_data in
  let '(c, d) := shape expression_map in
  r <- broadcast_dim a c ;;
  cc <- broadcast_dim b d ;;
  Ok (tabulate3 r cc t (fun i j k =>
        get3 spiking_data (bidx a i) (bidx b j) k
        * get expression_map (bidx c i) (bidx d j))).

End GcampConversion.

(** ** main.py and utils/plotting.py: the sweep over conditions *)

Module Sweep.

Import Np.
Open Scope R_scope.

(** The metadata record of one trial. *)
Record metadata : Type := {
  contrast : R;
  orientation : R;
  column_tuning : R
}.

(** The body of the innermost loop of [main.py], without the plots: the
    two stimuli of the condition and the trial on them. *)
Definition run_condition (ssn_model : SSNModel.t) (opsin_map : grid)
    (contrast orientation tuning : R) : result array3 :=
  let visual_stimulus :=
    {| VisualStimulus.orientation := orientation;
       VisualStimulus.spatial_frequency := 2;
       VisualStimulus.contrast := contrast;
       VisualStimulus.size := 2;
       VisualStimulus.onset := 0 |} in
  let opto_stimulus :=
    {| OptogeneticStimulus.column_tuning := tuning;
       OptogeneticStimulus.num_columns := 10;
       OptogeneticStimulus.column_area := 50;
       OptogeneticStimulus.power := 1 |} in
  SSNModel.run_trial ssn_model visual_stimulus opto_stimulus
                     Main.trial_duration Main.bin_size (Some opsin_map).

(** The metadata record that the loop appends for a condition. *)
Definition record_of (cond : R * R * R) : metadata :=
  let '(c, o, t) := cond in
  {| contrast := c; orientation := o; column_tuning := t |}.

(** The conditions in the order in which the three nested loops visit
    them. *)
Definition conditions (contrasts orientations column_tunings : list R)
    : list (R * R * R) :=
  flat_map (fun contrast =>
    flat_map (fun orientation =>
      List.map (fun tuning => (contrast, orientation, tuning)) column_tunings)
      orientations)
    contrasts.

(** The loops of [main.py]: each trial and its metadata record are appended
    to the two lists; an exception of a trial ends the sweep. *)
Fixpoint run_conditions (ssn_model : SSNModel.t) (opsin_map : grid)
    (conds : list (R * R * R))
    (trial_data_all_conditions : list array3) (metadata_list : list metadata)
    : result (list array3 * list metadata) :=
  match conds with
  | [] => Ok (trial_data_all_conditions, metadata_list)
  | (contrast, orientation, tuning) :: rest =>
      trial_data <-
        run_condition ssn_model opsin_map contrast orientation tuning ;;
      run_conditions ssn_model opsin_map rest
        (trial_data_all_conditions ++ [trial_data])
        (metadata_list ++ [{| contrast := contrast;
                              orientation := orientation;
                              column_tuning := tuning |}])
  end.

Definition sweep (ssn_model : SSNModel.t) (opsin_map : grid)
    (contrasts orientations column_tunings : list R)
    : result (list array3 * list metadata) :=
  run_conditions ssn_model opsin_map
    (conditions contrasts orientations column_tunings) [] [].

(** The test of the list comprehension of [plot_condition_grid]. *)
Definition matches (meta : metadata) (c o t : R) : bool :=
  (if Req_EM_T (contrast meta) c then true else false)
  && (if Req_EM_T (orientation meta) o then true else false)
  && (if Req_EM_T (column_tuning meta) t then true else false).

(** [[idx for idx, meta in enumerate(metadata) if ...][0]]: an
    [IndexError] when no record matches. *)
Definition condition_idx (metadata_list : list metadata) (c o t : R)
    : result nat :=
  match List.map fst
          (filter (fun im => matches (snd im) c o t)
                  (combine (seq 0 (length metadata_list)) metadata_list)) with
  | [] => Raise IndexError
  | idx :: _ => Ok idx
  end.

(** [trial_data_all_conditions[condition_idx]] *)
Definition condition_trial (trial_data_all_conditions : list array3)
    (metadata_list : list metadata) (c o t : R) : result array3 :=
  idx <- condition_idx metadata_list c o t ;;
  match nth_error trial_data_all_conditions idx with
  | Some trial_data => Ok trial_data
  | None => Raise IndexError
  end.

End Sweep.

(** ** The stepping loop of [run_trial] in binary64

    The loop of [models/ssn_model.py] once more, with every array cell a
    binary64 number and every operation rounded as numpy rounds it, so that
    overflow, [inf] and [nan] are represented.  Primitive floats have no
    [exp], [cos] or [pow]: the two frames, which the source obtains from the
    stimuli, and the kernels, which it obtains from
    [create_ssn_connectivity], are arguments here, and so is the function
    that stands for [x ** n]. *)

Module Binary64.

Definition grid : Type := list (list float).
Definition array3 : Type := list (list (list float)).

Definition get (A : grid) (i j : nat) : float := nth j (nth i A []) 0%float.

Definition get3 (A : array3) (i j k : nat) : float :=
  nth k (nth j (nth i A []) []) 0%float.

Definition shape (A : grid) : nat * nat := (length A, length (hd [] A)).

Definition shape3 (A : array3) : nat * nat * nat :=
  (length A, length (hd [] A), length (hd [] (hd [] A))).

Definition tabulate (r c : nat) (f : nat -> nat -> float) : grid :=
  map (fun i => map (f i) (seq 0 c)) (seq 0 r).

Definition tabulate3 (r c t : nat) (f : nat -> nat -> nat -> float) : array3 :=
  map (fun i => map (fun j => map (f i j) (seq 0 t)) (seq 0 c)) (seq 0 r).

(** [np.zeros((r, c))] *)
Definition zeros (r c : nat) : grid := tabulate r c (fun _ _ => 0%float).

(** [np.zeros((r, c, t))]: a negative dimension is a [ValueError]. *)
Definition zeros3 (r c : nat) (t : Z) : result array3 :=
  if (t <? 0)%Z then Raise ValueError
  else Ok (tabulate3 r c (Z.to_nat t) (fun _ _ _ => 0%float)).

(** An elementwise binary operation on two 2-D arrays, with broadcasting. *)
Definition broadcast2 (f : float -> float -> float) (A B : grid)
    : result grid :=
  let '(ra, ca) := shape A in
  let '(rb, cb) := shape B in
  r <- Np.broadcast_dim ra rb ;;
  c <- Np.broadcast_dim ca cb ;;
  Ok (tabulate r c (fun i j =>
        f (get A (Np.bidx ra i) (Np.bidx ca j))
          (get B (Np.bidx rb i) (Np.bidx cb j)))).

Definition add : grid -> grid -> result grid := broadcast2 PrimFloat.add.
Definition subtract : grid -> grid -> result grid := broadcast2 PrimFloat.sub.
Definition multiply : grid -> grid -> result grid := broadcast2 PrimFloat.mul.

(** [np.maximum(a, b)] on two scalars: [a] when [a >= b] or [a] is nan,
    [b] otherwise, so that a nan on either side is returned. *)
Definition maximum (a b : float) : float :=
  if (PrimFloat.leb b a || PrimFloat.is_nan a)%bool then a else b.

(** [activity[:, :, t] = G] *)
Definition set_last_axis (A : array3) (t : nat) (G : grid) : result array3 :=
  let '(r, c, tb) := shape3 A in
  let '(rg, cg) := shape G in
  if ((rg =? r) || (rg =? 1)) && ((cg =? c) || (cg =? 1)) then
    Ok (tabulate3 r c tb (fun i j k =>
          if k =? t then get G (Np.bidx rg i) (Np.bidx cg j)
          else get3 A i j k))
  else Raise ValueError.

(** [scipy.signal.convolve2d(in1, in2, mode='same', boundary='wrap')]: the
    sum of a cell starts at [0.0] and takes one rounded product and one
    rounded addition per kernel cell, rows then columns in increasing
    order. *)
Definition convolve2d_same_wrap (in1 in2 : grid) : grid :=
  let '(r, c) := shape in1 in
  let '(kr, kc) := shape in2 in
  tabulate r c (fun m n =>
    fold_left (fun acc j =>
      fold_left (fun acc' k =>
        (acc' + get in1
                  (Np.wrap (Z.of_nat m + Z.of_nat ((kr - 1) / 2) - Z.of_nat j) r)
                  (Np.wrap (Z.of_nat n + Z.of_nat ((kc - 1) / 2) - Z.of_nat k) c)
                * get in2 j k)%float)
        (seq 0 kc) acc)
      (seq 0 kr) 0%float).

Definition rect (r c : nat) (A : grid) : Prop :=
  length A = r /\ Forall (fun row => length row = c) A.

Definition rect3 (r c t : nat) (A : array3) : Prop :=
  length A = r /\
  Forall (fun row => length row = c /\ Forall (fun ts => length ts = t) row) A.

(** A cell that is not negative: [0 <= x] in the order of binary64, which
    [+inf] satisfies, or [x] is nan. *)
Definition not_negative (x : float) : Prop :=
  PrimFloat.leb 0 x = true \/ PrimFloat.is_nan x = true.

(** The fields of the engine that the loop reads. *)
Record t : Type := {
  size : nat * nat;
  n : float;
  exc_conn : grid;
  inh_conn : grid
}.

Section Loop.

(** [power x n] stands for the binary64 value of [x ** n]. *)
Variable power : float -> float -> float.

Definition supralinear_transfer_function (self : t) (input_current : grid)
    : grid :=
  map (map (fun x => power (maximum 0 x) (n self))) input_current.

Definition apply_opsin_map (opto_input opsin_map : grid) : result grid :=
  multiply opto_input opsin_map.

Definition convolve_with_kernel (activity kernel : grid) : grid :=
  convolve2d_same_wrap activity kernel.

Definition step (self : t) (visual_input opto_input current_activity : grid)
    : result grid :=
  let recurrent_exc := convolve_with_kernel current_activity (exc_conn self) in
  let recurrent_inh := convolve_with_kernel current_activity (inh_conn self) in
  s1 <- add visual_input opto_input ;;
  s2 <- add s1 recurrent_exc ;;
  total_input <- subtract s2 recurrent_inh ;;
  Ok (supralinear_transfer_function self total_input).

Fixpoint trial_loop (self : t) (visual_input opto_input : grid)
    (ts : list nat) (current_activity : grid) (activity : array3)
    : result array3 :=
  match ts with
  | [] => Ok activity
  | t :: ts' =>
      current_activity' <-
        step self visual_input opto_input current_activity ;;
      activity' <- set_last_axis activity t current_activity' ;;
      trial_loop self visual_input opto_input ts' current_activity' activity'
  end.

(** [run_trial] from the frame [visual_input] of the visual stimulus and
    the frame [opto_input] of the optogenetic stimulus. *)
Definition run_trial (self : t) (visual_input opto_input : grid)
    (trial_duration bin_size : float) (opsin_map : option grid)
    : result array3 :=
  time_bins <- SSNModel.time_bins trial_duration bin_size ;;
  activity <- zeros3 (fst (size self)) (snd (size self)) time_bins ;;
  opto_input <-
    match opsin_map with
    | Some m => apply_opsin_map opto_input m
    | None => Ok opto_input
    end ;;
  let current_activity := zeros (fst (size self)) (snd (size self)) in
  trial_loop self visual_input opto_input (seq 0 (Z.to_nat time_bins))
             current_activity activity.

End Loop.

(** [x ** 2]: for the exponent 2, as in the defaults, numpy's power is the
    square, one rounded product. *)
Definition square (x n : float) : float := (x * x)%float.

(** The kernels of a constant 2x2 orientation field for the default spreads
    [sigma_e = 8] and [sigma_i = 4], in binary64: the weights
    [exp(-d**2 / (2 * sigma**2))] at the squared distances
    [2.0000000000000004], [1] and [0] from the center [(1, 1)], each
    divided by their sum. *)
Definition exc_conn_2x2 : grid :=
  [ [0x1.fc020153ff784p-3; 0x1.fffe000155549p-3];
    [0x1.fffe000155549p-3; 0x1.0200ff54aaef5p-2] ]%float.

Definition inh_conn_2x2 : grid :=
  [ [0x1.f02053fdea021p-3; 0x1.ffe00155493f0p-3];
    [0x1.ffe00155493f0p-3; 0x1.080fd4abc1c00p-2] ]%float.

(** The engine with the default exponent on that field. *)
Definition model_2x2 : t :=
  {| size := (2%nat, 2%nat); n := 2%float;
     exc_conn := exc_conn_2x2; inh_conn := inh_conn_2x2 |}.

(** The frames of a trial on that field: the visual frame of a stimulus of
    contrast 0, the optogenetic frame of a stimulus tuned to the value of
    the field (every cell matches, so every cell is 1), and an opsin map
    with an expression level of 100 at one cell. *)
Definition visual_frame_2x2 : grid := [ [0; 0]; [0; 0] ]%float.
Definition opto_frame_2x2 : grid := [ [1; 1]; [1; 1] ]%float.
Definition opsin_map_2x2 : grid := [ [100; 0]; [0; 0] ]%float.

End Binary64.

(** * Properties *)

(** ** Lists built by tabulation *)

Section Tabulation.

Import Np.
Open Scope R_scope.

Lemma nth_map_seq {A : Type} (f : nat -> A) (n i : nat) (d : A) :
  (i < n)%nat -> nth i (map f (seq 0 n)) d = f i.
Proof.
  intros Hi.
  rewrite (nth_indep _ d (f 0%nat)) by (rewrite length_map, length_seq; exact Hi).
  rewrite map_nth, seq_nth by exact Hi.
  reflexivity.
Qed.

Lemma map_seq_ext {A : Type} (f g : nat -> A) (n : nat) :
  (forall i, (i < n)%nat -> f i = g i) -> map f (seq 0 n) = map g (seq 0 n).
Proof.
  intros H. apply map_ext_in. intros i Hi.
  apply in_seq in Hi. apply H. lia.
Qed.

Lemma length_tabulate r c f : length (tabulate r c f) = r.
Proof. unfold tabulate. now rewrite length_map, length_seq. Qed.

Lemma get_tabulate r c f i j :
  (i < r)%nat -> (j < c)%nat -> get (tabulate r c f) i j = f i j.
Proof.
  intros Hi Hj. unfold get, tabulate.
  rewrite (nth_map_seq (fun i => map (f i) (seq 0 c))) by exact Hi.
  now apply nth_map_seq.
Qed.

Lemma tabulate_ext r c f g :
  (forall i j, (i < r)%nat -> (j < c)%nat -> f i j = g i j) ->
  tabulate r c f = tabulate r c g.
Proof.
  intros H. unfold tabulate.
  apply map_seq_ext. intros i Hi.
  apply map_seq_ext. intros j Hj. now apply H.
Qed.

Lemma shape_tabulate r c f :
  (0 < r)%nat -> shape (tabulate r c f) = (r, c).
Proof.
  intros Hr. unfold shape. rewrite length_tabulate. f_equal.
  destruct r as [|r]; [lia|].
  unfold tabulate. cbn [seq map hd].
  now rewrite length_map, length_seq.
Qed.

Lemma shape_tabulate_0 c f : shape (tabulate 0 c f) = (0%nat, 0%nat).
Proof. reflexivity. Qed.

Lemma rect_tabulate r c f : rect r c (tabulate r c f).
Proof.
  split; [apply length_tabulate|].
  unfold tabulate. apply Forall_map, Forall_forall. intros i _.
  now rewrite length_map, length_seq.
Qed.

Lemma rect_shape r c A : rect r c A -> (0 < r)%nat -> shape A = (r, c).
Proof.
  intros [Hl Hall] Hr. unfold shape. rewrite Hl. f_equal.
  destruct A as [|row A]; [simpl in Hl; lia|].
  simpl. now inversion Hall.
Qed.

(** A rectangular array is the tabulation of its own cells. *)
Lemma rect_tabulate_get r c A : rect r c A -> A = tabulate r c (get A).
Proof.
  intros [Hl Hall].
  apply (nth_ext _ _ [] []).
  - now rewrite length_tabulate.
  - intros i Hi. rewrite Hl in Hi.
    unfold tabulate.
    rewrite (nth_map_seq (fun i => map (get A i) (seq 0 c))) by exact Hi.
    assert (Hrow : length (nth i A []) = c).
    { rewrite Forall_forall in Hall. apply Hall, nth_In. now rewrite Hl. }
    apply (nth_ext _ _ 0 0).
    + now rewrite length_map, length_seq.
    + intros j Hj. rewrite Hrow in Hj.
      now rewrite (nth_map_seq (get A i)) by exact Hj.
Qed.

Lemma all_cells_tabulate (P : R -> Prop) r c f :
  (forall i j, (i < r)%nat -> (j < c)%nat -> P (f i j)) ->
  all_cells P (tabulate r c f).
Proof.
  intros H. unfold all_cells, tabulate.
  apply Forall_map, Forall_forall. intros i Hi. apply in_seq in Hi.
  apply Forall_map, Forall_forall. intros j Hj. apply in_seq in Hj.
  apply H; lia.
Qed.

Lemma all_cells_map_grid (P : R -> Prop) f A :
  (forall x, P (f x)) -> all_cells P (map_grid f A).
Proof.
  intros H. unfold all_cells, map_grid.
  apply Forall_map, Forall_forall. intros row _.
  apply Forall_map, Forall_forall. intros x _. apply H.
Qed.

Lemma map_grid_tabulate f r c g :
  map_grid f (tabulate r c g) = tabulate r c (fun i j => f (g i j)).
Proof.
  unfold map_grid, tabulate. rewrite map_map.
  apply map_ext. intros i. now rewrite map_map.
Qed.

Lemma length_tabulate3 r c t f : length (tabulate3 r c t f) = r.
Proof. unfold tabulate3. now rewrite length_map, length_seq. Qed.

Lemma rect3_tabulate3 r c t f : rect3 r c t (tabulate3 r c t f).
Proof.
  split; [apply length_tabulate3|].
  unfold tabulate3. apply Forall_map, Forall_forall. intros i _. split.
  - now rewrite length_map, length_seq.
  - apply Forall_map, Forall_forall. intros j _.
    now rewrite length_map, length_seq.
Qed.

Lemma get3_tabulate3 r c t f i j k :
  (i < r)%nat -> (j < c)%nat -> (k < t)%nat ->
  get3 (tabulate3 r c t f) i j k = f i j k.
Proof.
  intros Hi Hj Hk. unfold get3, tabulate3.
  rewrite (nth_map_seq (fun i => map (fun j => map (f i j) (seq 0 t)) (seq 0 c)))
    by exact Hi.
  rewrite (nth_map_seq (fun j => map (f i j) (seq 0 t))) by exact Hj.
  now apply nth_map_seq.
Qed.

Lemma tabulate3_ext r c t f g :
  (forall i j k, (i < r)%nat -> (j < c)%nat -> (k < t)%nat ->
                 f i j k = g i j k) ->
  tabulate3 r c t f = tabulate3 r c t g.
Proof.
  intros H. unfold tabulate3.
  apply map_seq_ext. intros i Hi.
  apply map_seq_ext. intros j Hj.
  apply map_seq_ext. intros k Hk. now apply H.
Qed.

Lemma all_cells3_tabulate3 (P : R -> Prop) r c t f :
  (forall i j k, (i < r)%nat -> (j < c)%nat -> (k < t)%nat -> P (f i j k)) ->
  all_cells3 P (tabulate3 r c t f).
Proof.
  intros H. unfold all_cells3, tabulate3.
  apply Forall_map, Forall_forall. intros i Hi. apply in_seq in Hi.
  apply Forall_map, Forall_forall. intros j Hj. apply in_seq in Hj.
  apply Forall_map, Forall_forall. intros k Hk. apply in_seq in Hk.
  apply H; lia.
Qed.

Lemma shape3_tabulate3 r c t f :
  (0 < r)%nat -> (0 < c)%nat -> shape3 (tabulate3 r c t f) = (r, c, t).
Proof.
  intros Hr Hc. unfold shape3. rewrite length_tabulate3.
  destruct r as [|r]; [lia|]. destruct c as [|c]; [lia|].
  unfold tabulate3. cbn [seq map hd].
  cbn [length]. now rewrite !length_map, !length_seq.
Qed.

End Tabulation.

(** ** Periodic convolution *)

Section Convolution.

Import Np.
Open Scope R_scope.

Lemma wrap_lt i n : (0 < n)%nat -> (wrap i n < n)%nat.
Proof.
  intros Hn. unfold wrap.
  pose proof (Z.mod_pos_bound i (Z.of_nat n) ltac:(lia)). lia.
Qed.

Lemma wrap_of_nat i n : (0 < n)%nat -> Z.of_nat (wrap i n) = (i mod Z.of_nat n)%Z.
Proof.
  intros Hn. unfold wrap.
  pose proof (Z.mod_pos_bound i (Z.of_nat n) ltac:(lia)). lia.
Qed.

Lemma wrap_wrap_plus a b n :
  (0 < n)%nat -> wrap (Z.of_nat (wrap a n) + b) n = wrap (a + b) n.
Proof.
  intros Hn. rewrite wrap_of_nat by exact Hn.
  unfold wrap. now rewrite Zplus_mod_idemp_l.
Qed.

Lemma wrap_index_shift m off j s n :
  (0 < n)%nat ->
  wrap (Z.of_nat (wrap (m + off - j) n) - s) n =
  wrap (Z.of_nat (wrap (m - s) n) + off - j) n.
Proof.
  intros Hn.
  replace (Z.of_nat (wrap (m + off - j) n) - s)%Z
    with (Z.of_nat (wrap (m + off - j) n) + (- s))%Z by lia.
  replace (Z.of_nat (wrap (m - s) n) + off - j)%Z
    with (Z.of_nat (wrap (m - s) n) + (off - j))%Z by lia.
  rewrite 2 wrap_wrap_plus by exact Hn.
  f_equal. lia.
Qed.

Lemma wrap_small i n : (i < n)%nat -> wrap (Z.of_nat i) n = i.
Proof.
  intros Hi. unfold wrap. rewrite Z.mod_small by lia. lia.
Qed.

Lemma fold_left_ext {A B : Type} (f g : A -> B -> A) (l : list B) (a : A) :
  (forall x y, f x y = g x y) -> fold_left f l a = fold_left g l a.
Proof.
  intros H. revert a. induction l as [|y l IH]; intros a; simpl.
  - reflexivity.
  - now rewrite H, IH.
Qed.

(** The cells of the convolution, once the two shapes are known. *)
Lemma convolve2d_same_wrap_eq in1 in2 r c kr kc :
  shape in1 = (r, c) -> shape in2 = (kr, kc) ->
  convolve2d_same_wrap in1 in2 =
  tabulate r c (fun m n =>
    fold_left (fun acc j =>
      fold_left (fun acc' k =>
        acc' + get in1
                 (wrap (Z.of_nat m + Z.of_nat ((kr - 1) / 2) - Z.of_nat j) r)
                 (wrap (Z.of_nat n + Z.of_nat ((kc - 1) / 2) - Z.of_nat k) c)
               * get in2 j k)
        (seq 0 kc) acc)
      (seq 0 kr) 0).
Proof.
  intros H1 H2. unfold convolve2d_same_wrap. now rewrite H1, H2.
Qed.

Lemma roll_eq A r c s t :
  shape A = (r, c) ->
  roll A s t =
  tabulate r c (fun i j =>
    get A (wrap (Z.of_nat i - s) r) (wrap (Z.of_nat j - t) c)).
Proof. intros H. unfold roll. now rewrite H. Qed.

Lemma shape_convolve in1 in2 : shape (convolve2d_same_wrap in1 in2) = shape in1.
Proof.
  destruct (shape in1) as [r c] eqn:H1. destruct (shape in2) as [kr kc] eqn:H2.
  rewrite (convolve2d_same_wrap_eq _ _ _ _ _ _ H1 H2).
  destruct r as [|r].
  - unfold shape in H1. injection H1 as Hl Hc.
    apply length_zero_iff_nil in Hl. subst in1. simpl in Hc. now subst c.
  - apply shape_tabulate. lia.
Qed.

Lemma shape_roll A s t : shape (roll A s t) = shape A.
Proof.
  destruct (shape A) as [r c] eqn:H1.
  rewrite (roll_eq _ _ _ _ _ H1).
  destruct r as [|r].
  - unfold shape in H1. injection H1 as Hl Hc.
    apply length_zero_iff_nil in Hl. subst A. simpl in Hc. now subst c.
  - apply shape_tabulate. lia.
Qed.

(** The convolution on concrete grids: a kernel with a single 1 next to
    its center shifts the rows circularly, as [np.roll] does. *)
Example convolve_with_kernel_row_kernel :
  SSNModel.convolve_with_kernel [[1; 2]; [3; 4]] [[0; 1]] = [[2; 1]; [4; 3]].
Proof. vm_compute. repeat (f_equal; try ring). Qed.

Example convolve_with_kernel_shifted_delta :
  SSNModel.convolve_with_kernel [[1; 2; 3]; [4; 5; 6]; [7; 8; 9]]
                                [[0; 0; 0]; [0; 0; 1]; [0; 0; 0]] =
  roll [[1; 2; 3]; [4; 5; 6]; [7; 8; 9]] 0 1.
Proof. vm_compute. repeat (f_equal; try ring). Qed.

Example roll_columns :
  roll [[1; 2; 3]; [4; 5; 6]; [7; 8; 9]] 0 1 = [[3; 1; 2]; [6; 4; 5]; [9; 7; 8]].
Proof. vm_compute. reflexivity. Qed.

(** C5. The periodic convolution of [convolve_with_kernel] commutes with the
    circular shift of the two spatial axes: convolving the shifted activity
    grid gives the shifted convolution of the unshifted grid, for every
    grid, every kernel and every pair of shifts. *)
Theorem convolve_with_kernel_commutes_with_roll :
  forall (activity kernel : grid) (s t : Z),
    SSNModel.convolve_with_kernel (roll activity s t) kernel =
    roll (SSNModel.convolve_with_kernel activity kernel) s t.
Proof.
  intros A K s t. unfold SSNModel.convolve_with_kernel.
  destruct (shape A) as [r c] eqn:HA. destruct (shape K) as [kr kc] eqn:HK.
  assert (HR : shape (roll A s t) = (r, c)) by now rewrite shape_roll.
  assert (HC : shape (convolve2d_same_wrap A K) = (r, c))
    by now rewrite shape_convolve.
  rewrite (convolve2d_same_wrap_eq _ _ _ _ _ _ HR HK).
  rewrite (roll_eq _ _ _ _ _ HC).
  apply tabulate_ext. intros m n Hm Hn.
  rewrite (convolve2d_same_wrap_eq _ _ _ _ _ _ HA HK).
  rewrite get_tabulate by (apply wrap_lt; lia).
  apply fold_left_ext. intros acc j.
  apply fold_left_ext. intros acc' k.
  rewrite (roll_eq _ _ _ _ _ HA).
  rewrite get_tabulate by (apply wrap_lt; lia).
  f_equal. f_equal. f_equal; apply wrap_index_shift; lia.
Qed.

End Convolution.

(** ** The optogenetic stimulus *)

Section Optogenetic.

Import Np.
Open Scope R_scope.

Lemma fold_left_Rmax_le (l : list R) (x p : R) :
  x <= p -> (forall y, In y l -> y <= p) -> fold_left Rmax l x <= p.
Proof.
  revert x. induction l as [|y l IH]; intros x Hx Hl; simpl.
  - exact Hx.
  - apply IH.
    + apply Rmax_lub; [exact Hx | apply Hl; now left].
    + intros z Hz. apply Hl. now right.
Qed.

Lemma fold_left_Rmax_ge_init (l : list R) (x : R) : x <= fold_left Rmax l x.
Proof.
  revert x. induction l as [|y l IH]; intros x; simpl.
  - lra.
  - eapply Rle_trans; [apply (Rmax_l x y) | apply IH].
Qed.

Lemma fold_left_Rmax_ge (l : list R) (x y : R) :
  In y (x :: l) -> y <= fold_left Rmax l x.
Proof.
  revert x. induction l as [|z l IH]; intros x Hin; simpl.
  - destruct Hin as [-> | []]. lra.
  - destruct Hin as [-> | [-> | Hin]].
    + eapply Rle_trans; [apply (Rmax_l y z) | apply fold_left_Rmax_ge_init].
    + eapply Rle_trans; [apply (Rmax_r x y) | apply fold_left_Rmax_ge_init].
    + apply IH. now right.
Qed.

(** [np.max] of an array that contains [p] and is bounded by [p]. *)
Lemma amax_attained (A : grid) (p : R) :
  In p (concat A) -> (forall y, In y (concat A) -> y <= p) -> amax A = Ok p.
Proof.
  intros Hin Hle. unfold amax.
  destruct (concat A) as [|x xs]; [destruct Hin|].
  f_equal. apply Rle_antisym.
  - apply fold_left_Rmax_le; [apply Hle; now left|].
    intros y Hy. apply Hle. now right.
  - now apply fold_left_Rmax_ge.
Qed.

Lemma concat_map_grid f (A : grid) : concat (map_grid f A) = map f (concat A).
Proof. unfold map_grid. symmetry. apply concat_map. Qed.

Lemma map_grid_map_grid f g (A : grid) :
  map_grid f (map_grid g A) = map_grid (fun x => f (g x)) A.
Proof.
  unfold map_grid. rewrite map_map. apply map_ext. intros row.
  now rewrite map_map.
Qed.

Lemma map_grid_ext_in f g (A : grid) :
  (forall x, In x (concat A) -> f x = g x) -> map_grid f A = map_grid g A.
Proof.
  intros H. unfold map_grid. apply map_ext_in. intros row Hrow.
  apply map_ext_in. intros x Hx. apply H.
  apply in_concat. now exists row.
Qed.

Lemma map_grid_id (A : grid) : map_grid (fun x => x) A = A.
Proof.
  unfold map_grid. rewrite <- (map_id A) at 2. apply map_ext.
  intros row. apply map_id.
Qed.

(** When a cell of the orientation map equals [column_tuning] and
    [power > 0], the maximum of the scaled mask is [power], and dividing by
    it gives the mask back. *)
Lemma generate_input_scaled_mask :
  forall (self : OptogeneticStimulus.t) (grid_size : nat * nat)
         (orientation_map : grid),
    0 < OptogeneticStimulus.power self ->
    In (OptogeneticStimulus.column_tuning self) (concat orientation_map) ->
    OptogeneticStimulus.generate_input self grid_size orientation_map =
    Ok (OptogeneticStimulus.mask self orientation_map).
Proof.
  intros self gs om Hp Hin.
  unfold OptogeneticStimulus.generate_input.
  set (p := OptogeneticStimulus.power self) in *.
  set (ind := fun v : R =>
         if Req_EM_T v (OptogeneticStimulus.column_tuning self) then 1 else 0).
  assert (Hmax : amax (map_grid (fun v => v * p)
                                (OptogeneticStimulus.mask self om)) = Ok p).
  { apply amax_attained.
    - unfold OptogeneticStimulus.mask. rewrite map_grid_map_grid.
      rewrite concat_map_grid. apply in_map_iff.
      exists (OptogeneticStimulus.column_tuning self). split; [|exact Hin].
      destruct (Req_EM_T _ _) as [_|Hne]; [lra | now destruct Hne].
    - intros y Hy. unfold OptogeneticStimulus.mask in Hy.
      rewrite map_grid_map_grid, concat_map_grid in Hy.
      apply in_map_iff in Hy. destruct Hy as [v [<- _]].
      destruct (Req_EM_T _ _); lra. }
  rewrite Hmax. cbn [bind].
  destruct (Rlt_dec 0 p) as [_|Hn]; [|now destruct Hn].
  f_equal. rewrite map_grid_map_grid.
  rewrite <- (map_grid_id (OptogeneticStimulus.mask self om)) at 2.
  apply map_grid_ext_in. intros x _. field. lra.
Qed.

End Optogenetic.

(** ** Broadcasting *)

Section Broadcasting.

Import Np.
Open Scope R_scope.

Lemma broadcast_dim_same a : broadcast_dim a a = Ok a.
Proof. unfold broadcast_dim. now rewrite Nat.eqb_refl. Qed.

Lemma bidx_lt a b n i :
  broadcast_dim a b = Ok n -> (i < n)%nat ->
  (bidx a i < a)%nat /\ (bidx b i < b)%nat.
Proof.
  unfold broadcast_dim, bidx. intros H Hi.
  destruct (a =? b) eqn:Eab; [apply Nat.eqb_eq in Eab|apply Nat.eqb_neq in Eab].
  - injection H as <-. subst b. destruct (a =? 1); lia.
  - destruct (a =? 1) eqn:Ea; [apply Nat.eqb_eq in Ea|apply Nat.eqb_neq in Ea].
    + injection H as <-. subst a.
      destruct (b =? 1) eqn:Eb; [apply Nat.eqb_eq in Eb; lia | lia].
    + destruct (b =? 1) eqn:Eb; [apply Nat.eqb_eq in Eb|discriminate].
      injection H as <-. lia.
Qed.

Lemma bidx_same a i : (i < a)%nat -> bidx a i = i.
Proof. unfold bidx. destruct (a =? 1) eqn:E; [apply Nat.eqb_eq in E; lia | reflexivity]. Qed.

Lemma broadcast2_tabulate f ra ca rb cb F G r c :
  (0 < ra)%nat -> (0 < rb)%nat ->
  broadcast_dim ra rb = Ok r -> broadcast_dim ca cb = Ok c ->
  broadcast2 f (tabulate ra ca F) (tabulate rb cb G) =
  Ok (tabulate r c (fun i j =>
        f (F (bidx ra i) (bidx ca j)) (G (bidx rb i) (bidx cb j)))).
Proof.
  intros Hra Hrb Hr Hc. unfold broadcast2.
  rewrite 2 shape_tabulate by assumption.
  rewrite Hr, Hc. cbn [bind]. f_equal.
  apply tabulate_ext. intros i j Hi Hj.
  destruct (bidx_lt _ _ _ _ Hr Hi), (bidx_lt _ _ _ _ Hc Hj).
  now rewrite 2 get_tabulate.
Qed.

(** Two arrays of one shape: the operation is cell by cell. *)
Lemma broadcast2_same_shape f A B r c :
  shape A = (r, c) -> shape B = (r, c) ->
  broadcast2 f A B =
  Ok (tabulate r c (fun i j =>
        f (get A (bidx r i) (bidx c j)) (get B (bidx r i) (bidx c j)))).
Proof.
  intros HA HB. unfold broadcast2. rewrite HA, HB.
  now rewrite 2 broadcast_dim_same.
Qed.

Lemma shape_map_grid f A : shape (map_grid f A) = shape A.
Proof.
  unfold shape, map_grid. rewrite length_map. f_equal.
  destruct A as [|row A]; simpl; [reflexivity | apply length_map].
Qed.

Lemma lookup_rect r c A i j :
  rect r c A -> (i < r)%nat -> (j < c)%nat -> lookup A i j = Ok (get A i j).
Proof.
  intros [Hl Hall] Hi Hj. unfold lookup, get.
  rewrite (nth_error_nth' A []) by lia.
  assert (Hrow : length (nth i A []) = c).
  { rewrite Forall_forall in Hall. apply Hall, nth_In. lia. }
  now rewrite (nth_error_nth' _ 0) by lia.
Qed.

End Broadcasting.

(** ** Connectivity kernels *)

Section Kernels.

Import Np.
Open Scope R_scope.

Lemma fold_right_Rplus_nonneg (l : list R) :
  (forall y, In y l -> 0 <= y) -> 0 <= fold_right Rplus 0 l.
Proof.
  induction l as [|x l IH]; intros H; simpl.
  - lra.
  - assert (0 <= x) by (apply H; now left).
    assert (0 <= fold_right Rplus 0 l) by (apply IH; intros y Hy; apply H; now right).
    lra.
Qed.

Lemma fold_right_Rplus_ge (l : list R) (x : R) :
  (forall y, In y l -> 0 <= y) -> In x l -> x <= fold_right Rplus 0 l.
Proof.
  induction l as [|z l IH]; intros H Hin; [destruct Hin|]. simpl.
  assert (Hz : 0 <= z) by (apply H; now left).
  assert (Hl : 0 <= fold_right Rplus 0 l)
    by (apply fold_right_Rplus_nonneg; intros y Hy; apply H; now right).
  destruct Hin as [-> | Hin].
  - lra.
  - assert (x <= fold_right Rplus 0 l) by (apply IH; [intros y Hy; apply H; now right | exact Hin]).
    lra.
Qed.

Lemma fold_right_Rplus_scale (l : list R) (k : R) :
  fold_right Rplus 0 (map (fun v => v * k) l) = fold_right Rplus 0 l * k.
Proof.
  induction l as [|x l IH]; simpl; [ring | rewrite IH; ring].
Qed.

(** A cell of an array of non-negative numbers is at most their sum. *)
Lemma sum_tabulate_ge r c f i j :
  (forall i' j', (i' < r)%nat -> (j' < c)%nat -> 0 <= f i' j') ->
  (i < r)%nat -> (j < c)%nat -> f i j <= sum (tabulate r c f).
Proof.
  intros Hf Hi Hj. unfold sum, tabulate. rewrite map_map.
  apply Rle_trans with (fold_right Rplus 0 (map (f i) (seq 0 c))).
  - apply fold_right_Rplus_ge.
    + intros y Hy. apply in_map_iff in Hy. destruct Hy as [j' [<- Hj']].
      apply in_seq in Hj'. apply Hf; lia.
    + apply in_map_iff. exists j. split; [reflexivity | apply in_seq; lia].
  - apply fold_right_Rplus_ge.
    + intros y Hy. apply in_map_iff in Hy. destruct Hy as [i' [<- Hi']].
      apply in_seq in Hi'. apply fold_right_Rplus_nonneg.
      intros z Hz. apply in_map_iff in Hz. destruct Hz as [j' [<- Hj']].
      apply in_seq in Hj'. apply Hf; lia.
    + apply in_map_iff. exists i. split; [reflexivity | apply in_seq; lia].
Qed.

Lemma sum_map_grid_div (A : grid) (s : R) :
  sum (map_grid (fun v => v / s) A) = sum A / s.
Proof.
  unfold sum, map_grid, Rdiv. rewrite map_map.
  rewrite <- fold_right_Rplus_scale. rewrite map_map.
  f_equal. apply map_ext. intros row. apply fold_right_Rplus_scale.
Qed.

(** Normalization by a nonzero sum yields a kernel that sums to 1. *)
Lemma sum_normalize (kernel : grid) :
  sum kernel <> 0 -> sum (SSNModel.normalize kernel) = 1.
Proof.
  intros H. unfold SSNModel.normalize. rewrite sum_map_grid_div. now field.
Qed.

Lemma exp_nonpos_le_1 (x : R) : x <= 0 -> exp x <= 1.
Proof.
  intros [Hlt | ->].
  - rewrite <- exp_0. left. now apply exp_increasing.
  - rewrite exp_0. lra.
Qed.

Lemma kernel_weight_bounds om r c sigma i j :
  0 < sigma -> 0 <= SSNModel.kernel_weight om r c sigma i j <= 1.
Proof.
  intros Hs. unfold SSNModel.kernel_weight.
  set (d := sqrt _). set (a := deg2rad _).
  assert (He : 0 < exp (- d ^ 2 / (2 * sigma ^ 2))) by apply exp_pos.
  assert (He1 : exp (- d ^ 2 / (2 * sigma ^ 2)) <= 1).
  { apply exp_nonpos_le_1.
    assert (0 < 2 * sigma ^ 2) by nra.
    assert (0 <= d ^ 2) by (simpl; nra).
    unfold Rdiv. assert (0 < / (2 * sigma ^ 2)) by now apply Rinv_0_lt_compat.
    nra. }
  pose proof (COS_bound a) as [Hc1 Hc2].
  assert (0 <= cos a ^ 2 <= 1) by (simpl; nra).
  nra.
Qed.

Lemma bidx_center r c :
  (0 < r)%nat -> (0 < c)%nat -> r = c \/ r = 1%nat \/ c = 1%nat ->
  bidx r (Nat.max r c / 2) = (r / 2)%nat.
Proof.
  intros Hr Hc Hb. unfold bidx.
  destruct (r =? 1) eqn:E; [apply Nat.eqb_eq in E|apply Nat.eqb_neq in E].
  - subst r. reflexivity.
  - f_equal. lia.
Qed.

Lemma kernel_weight_center om r c sigma :
  (0 < r)%nat -> (0 < c)%nat -> r = c \/ r = 1%nat \/ c = 1%nat ->
  SSNModel.kernel_weight om r c sigma (Nat.max r c / 2) (Nat.max r c / 2) = 1.
Proof.
  intros Hr Hc Hb. unfold SSNModel.kernel_weight.
  rewrite (bidx_center r c Hr Hc Hb).
  assert (Hb' : c = r \/ c = 1%nat \/ r = 1%nat) by lia.
  rewrite (Nat.max_comm r c), (bidx_center c r Hc Hr Hb').
  replace ((INR (r / 2) - INR (r / 2)) ^ 2 + (INR (c / 2) - INR (c / 2)) ^ 2)
    with 0 by ring.
  rewrite sqrt_0.
  replace (- 0 ^ 2 / (2 * sigma ^ 2)) with 0 by (unfold Rdiv; ring).
  rewrite exp_0.
  replace (get om (r / 2) (c / 2) - get om (r / 2) (c / 2)) with 0 by ring.
  rewrite Rabs_R0. unfold deg2rad. rewrite Rmult_0_l, cos_0. ring.
Qed.

Lemma broadcast_dim_max a b :
  (0 < a)%nat -> (0 < b)%nat -> a = b \/ a = 1%nat \/ b = 1%nat ->
  broadcast_dim a b = Ok (Nat.max a b).
Proof.
  intros Ha Hb H. unfold broadcast_dim.
  destruct (a =? b) eqn:Eab; [apply Nat.eqb_eq in Eab; f_equal; lia|].
  apply Nat.eqb_neq in Eab.
  destruct (a =? 1) eqn:Ea; [apply Nat.eqb_eq in Ea; f_equal; lia|].
  apply Nat.eqb_neq in Ea.
  destruct (b =? 1) eqn:Eb; [apply Nat.eqb_eq in Eb; f_equal; lia|].
  apply Nat.eqb_neq in Eb. lia.
Qed.

(** The kernels before normalization, cell by cell: for a map of shape
    [(r, c)] that broadcasts against its transpose, both have shape
    [(max r c, max r c)]. *)
Lemma unnormalized_kernels_cells om r c sigma_e sigma_i :
  rect r c om -> (0 < r)%nat -> (0 < c)%nat ->
  r = c \/ r = 1%nat \/ c = 1%nat ->
  SSNModel.unnormalized_kernels om sigma_e sigma_i =
  Ok (tabulate (Nat.max r c) (Nat.max r c) (SSNModel.kernel_weight om r c sigma_e),
      tabulate (Nat.max r c) (Nat.max r c) (SSNModel.kernel_weight om r c sigma_i)).
Proof.
  intros Hrect Hr Hc Hb. unfold SSNModel.unnormalized_kernels.
  rewrite (rect_shape _ _ _ Hrect Hr). cbn [fst snd].
  rewrite (lookup_rect r c) by
    (try exact Hrect; apply Nat.Div0.div_lt_upper_bound; lia).
  cbn [bind].
  assert (Hsim : forall h,
            map_grid h om = tabulate r c (fun i j => h (get om i j))).
  { intros h. rewrite (rect_tabulate_get _ _ _ Hrect) at 1.
    apply map_grid_tabulate. }
  rewrite map_grid_map_grid, Hsim.
  rewrite 2 map_grid_tabulate.
  assert (Hcr : broadcast_dim c r = Ok (Nat.max r c)).
  { rewrite Nat.max_comm. apply broadcast_dim_max; lia. }
  assert (Hrc : broadcast_dim r c = Ok (Nat.max r c))
    by (apply broadcast_dim_max; lia).
  unfold multiply.
  rewrite (broadcast2_tabulate _ _ _ _ _ _ _ _ _ Hc Hr Hcr Hrc).
  cbn [bind].
  rewrite (broadcast2_tabulate _ _ _ _ _ _ _ _ _ Hc Hr Hcr Hrc).
  cbn [bind]. reflexivity.
Qed.

(** When the shapes [(c, r)] and [(r, c)] do not broadcast, the product of
    the distance array and the similarity array is a [ValueError]. *)
Lemma unnormalized_kernels_shape_error om r c sigma_e sigma_i :
  rect r c om -> (1 < r)%nat -> (1 < c)%nat -> r <> c ->
  SSNModel.unnormalized_kernels om sigma_e sigma_i = Raise ValueError.
Proof.
  intros Hrect Hr Hc Hne. unfold SSNModel.unnormalized_kernels.
  rewrite (rect_shape _ _ _ Hrect) by lia. cbn [fst snd].
  rewrite (lookup_rect r c) by
    (try exact Hrect; apply Nat.Div0.div_lt_upper_bound; lia).
  cbn [bind]. unfold multiply, broadcast2.
  rewrite map_grid_map_grid, !shape_map_grid.
  rewrite shape_tabulate by lia. rewrite (rect_shape _ _ _ Hrect) by lia.
  unfold broadcast_dim.
  destruct (c =? r) eqn:E1; [apply Nat.eqb_eq in E1; lia|].
  destruct (c =? 1) eqn:E2; [apply Nat.eqb_eq in E2; lia|].
  destruct (r =? 1) eqn:E3; [apply Nat.eqb_eq in E3; lia|].
  reflexivity.
Qed.

(** The sum of an unnormalized kernel is at least the weight 1 of its
    center cell, so it is never zero. *)
Lemma kernel_sum_ge_1 om r c sigma :
  (0 < r)%nat -> (0 < c)%nat -> r = c \/ r = 1%nat \/ c = 1%nat ->
  0 < sigma ->
  1 <= sum (tabulate (Nat.max r c) (Nat.max r c)
                     (SSNModel.kernel_weight om r c sigma)).
Proof.
  intros Hr Hc Hb Hs.
  rewrite <- (kernel_weight_center om r c sigma Hr Hc Hb) at 1.
  apply sum_tabulate_ge.
  - intros i j _ _. now apply kernel_weight_bounds.
  - apply Nat.Div0.div_lt_upper_bound; lia.
  - apply Nat.Div0.div_lt_upper_bound; lia.
Qed.

Lemma kernel_weight_nonneg om r c sigma i j :
  0 <= SSNModel.kernel_weight om r c sigma i j.
Proof.
  unfold SSNModel.kernel_weight.
  set (x := _ / _). set (a := deg2rad _).
  pose proof (exp_pos x). pose proof (COS_bound a) as [Hc1 Hc2].
  assert (0 <= cos a ^ 2) by (simpl; nra). nra.
Qed.

(** Whenever kernel construction reaches the normalization, whatever the
    field and the spreads, each unnormalized sum is at least 1: the divisor
    of the normalization is never zero. *)
Lemma unnormalized_sums_ge_1 om r c sigma_e sigma_i ue ui :
  rect r c om ->
  SSNModel.unnormalized_kernels om sigma_e sigma_i = Ok (ue, ui) ->
  1 <= sum ue /\ 1 <= sum ui.
Proof.
  intros Hrect Hk.
  assert (Hr : (0 < r)%nat).
  { destruct r as [|r]; [|lia]. exfalso.
    destruct Hrect as [Hl _]. apply length_zero_iff_nil in Hl. subst om.
    discriminate Hk. }
  assert (Hc : (0 < c)%nat).
  { destruct c as [|c]; [|lia]. exfalso.
    unfold SSNModel.unnormalized_kernels in Hk.
    rewrite (rect_shape _ _ _ Hrect Hr) in Hk. cbn [fst snd] in Hk.
    unfold lookup in Hk. destruct Hrect as [Hl Hall].
    rewrite (nth_error_nth' om []) in Hk
      by (rewrite Hl; apply Nat.Div0.div_lt_upper_bound; lia).
    assert (Hrow : length (nth (r / 2) om []) = 0%nat).
    { rewrite Forall_forall in Hall. apply Hall, nth_In.
      rewrite Hl. apply Nat.Div0.div_lt_upper_bound; lia. }
    apply length_zero_iff_nil in Hrow. rewrite Hrow in Hk.
    discriminate Hk. }
  destruct (Nat.eq_dec r c) as [Hrc|Hrc];
    [|destruct (Nat.eq_dec r 1) as [Hr1|Hr1];
      [|destruct (Nat.eq_dec c 1) as [Hc1|Hc1]]].
  4: { rewrite unnormalized_kernels_shape_error with (r := r) (c := c) in Hk
         by (try exact Hrect; lia).
       discriminate Hk. }
  all: rewrite (unnormalized_kernels_cells om r c) in Hk
         by (try exact Hrect; lia);
       injection Hk as <- <-;
       assert (Hcenter : forall sigma,
                 SSNModel.kernel_weight om r c sigma
                   (Nat.max r c / 2) (Nat.max r c / 2) = 1)
         by (intros sigma; apply kernel_weight_center; lia);
       split;
       [rewrite <- (Hcenter sigma_e) at 1 | rewrite <- (Hcenter sigma_i) at 1];
       apply sum_tabulate_ge;
       try (intros; apply kernel_weight_nonneg);
       apply Nat.Div0.div_lt_upper_bound; lia.
Qed.

End Kernels.

(** ** The transfer function and one step of the dynamics *)

Section Dynamics.

Import Np.
Open Scope R_scope.

Lemma power_nonneg (x n : R) : 0 <= power x n.
Proof.
  unfold power. destruct (Req_EM_T x 0).
  - destruct (Req_EM_T n 0); lra.
  - unfold Rpower. left. apply exp_pos.
Qed.

(** [transfer(0) = 0] for a positive exponent. *)
Lemma power_0 (n : R) : 0 < n -> power (Rmax 0 0) n = 0.
Proof.
  intros Hn. unfold power. rewrite Rmax_left by lra.
  destruct (Req_EM_T 0 0) as [_|H]; [|now destruct H].
  destruct (Req_EM_T n 0); lra.
Qed.

(** For a natural exponent [k > 0] the model's power is the iterated
    product, as for [n = 2] in the defaults. *)
Lemma power_pow (x : R) (k : nat) :
  0 <= x -> (0 < k)%nat -> power x (INR k) = x ^ k.
Proof.
  intros Hx Hk. unfold power. destruct (Req_EM_T x 0) as [->|Hne].
  - destruct (Req_EM_T (INR k) 0) as [H0|_].
    + change 0 with (INR 0) in H0. apply INR_eq in H0. lia.
    + rewrite pow_i by lia. reflexivity.
  - apply Rpower_pow. lra.
Qed.

Lemma get_all_cells (P : R -> Prop) (A : grid) (i j : nat) :
  all_cells P A -> P 0 -> P (get A i j).
Proof.
  intros HA H0. unfold get, all_cells in *.
  destruct (nth_in_or_default i A []) as [Hin | ->].
  - rewrite Forall_forall in HA. specialize (HA _ Hin).
    destruct (nth_in_or_default j (nth i A []) 0) as [Hin' | ->].
    + rewrite Forall_forall in HA. now apply HA.
    + exact H0.
  - destruct j; exact H0.
Qed.

Lemma get3_all_cells3 (P : R -> Prop) (A : array3) (i j k : nat) :
  all_cells3 P A -> P 0 -> P (get3 A i j k).
Proof.
  intros HA H0. unfold get3, all_cells3 in *.
  destruct (nth_in_or_default i A []) as [Hin | ->].
  - rewrite Forall_forall in HA. specialize (HA _ Hin).
    destruct (nth_in_or_default j (nth i A []) []) as [Hin' | ->].
    + rewrite Forall_forall in HA. specialize (HA _ Hin').
      destruct (nth_in_or_default k (nth j (nth i A []) []) 0) as [Hin'' | ->].
      * rewrite Forall_forall in HA. now apply HA.
      * exact H0.
    + destruct k; exact H0.
  - destruct j; destruct k; exact H0.
Qed.

End Dynamics.

(** ** Trials on well-shaped inputs *)

Section Trials.

Import Np.
Open Scope R_scope.

Lemma rect3_shape3 W H T A :
  rect3 W H T A -> (0 < W)%nat -> (0 < H)%nat -> shape3 A = (W, H, T).
Proof.
  intros [Hl Hall] HW HH. unfold shape3. rewrite Hl.
  destruct A as [|row A]; [simpl in Hl; lia|].
  inversion Hall as [|? ? [Hrow Hcells] _]; subst. simpl.
  destruct row as [|ts row]; [simpl in HH; lia|].
  inversion Hcells; subst. reflexivity.
Qed.

Lemma set_last_axis_same_shape A t G W H T :
  shape3 A = (W, H, T) -> shape G = (W, H) ->
  set_last_axis A t G =
  Ok (tabulate3 W H T (fun i j k =>
        if k =? t then get G (bidx W i) (bidx H j) else get3 A i j k)).
Proof.
  intros HA HG. unfold set_last_axis. rewrite HA, HG.
  now rewrite 2 Nat.eqb_refl.
Qed.

(** With the two frames and the state of one shape, a step returns a state
    of that shape. *)
Lemma step_same_shape self v o cur W H :
  (0 < W)%nat ->
  shape v = (W, H) -> shape o = (W, H) -> shape cur = (W, H) ->
  exists cur', SSNModel.step self v o cur = Ok cur' /\ shape cur' = (W, H).
Proof.
  intros HW Hv Ho Hc. unfold SSNModel.step, SSNModel.convolve_with_kernel, add, subtract.
  rewrite (broadcast2_same_shape _ _ _ _ _ Hv Ho). cbn [bind].
  rewrite (broadcast2_same_shape _ _ _ W H);
    [ | now apply shape_tabulate | now rewrite shape_convolve ].
  cbn [bind].
  rewrite (broadcast2_same_shape _ _ _ W H);
    [ | now apply shape_tabulate | now rewrite shape_convolve ].
  cbn [bind]. eexists. split; [reflexivity|].
  unfold SSNModel.supralinear_transfer_function.
  rewrite shape_map_grid. now apply shape_tabulate.
Qed.

Lemma trial_loop_returns self v o W H T :
  (0 < W)%nat -> (0 < H)%nat ->
  shape v = (W, H) -> shape o = (W, H) ->
  forall ts cur act,
    shape cur = (W, H) -> rect3 W H T act ->
    exists tr, SSNModel.trial_loop self v o ts cur act = Ok tr /\
               rect3 W H T tr.
Proof.
  intros HW HH Hv Ho. induction ts as [|t ts IH]; intros cur act Hc Hact; simpl.
  - now exists act.
  - destruct (step_same_shape self v o cur W H HW Hv Ho Hc) as [cur' [-> Hc']].
    cbn [bind].
    rewrite (set_last_axis_same_shape _ _ _ W H T);
      [ | now apply rect3_shape3 | exact Hc' ].
    cbn [bind]. apply IH; [exact Hc' | apply rect3_tabulate3].
Qed.

Lemma in_concat_tabulate r c f y :
  In y (concat (tabulate r c f)) ->
  exists i j, (i < r)%nat /\ (j < c)%nat /\ y = f i j.
Proof.
  intros Hin. apply in_concat in Hin. destruct Hin as [row [Hrow Hy]].
  unfold tabulate in Hrow. apply in_map_iff in Hrow.
  destruct Hrow as [i [<- Hi]]. apply in_seq in Hi.
  apply in_map_iff in Hy. destruct Hy as [j [<- Hj]]. apply in_seq in Hj.
  exists i, j. repeat split; lia.
Qed.

Lemma amax_nonempty W H A :
  rect W H A -> (0 < W)%nat -> (0 < H)%nat -> exists m, amax A = Ok m.
Proof.
  intros [Hl Hall] HW HH. unfold amax.
  destruct A as [|row A]; [simpl in Hl; lia|].
  inversion Hall; subst.
  destruct row as [|x row]; [simpl in HH; lia|].
  simpl. eexists. reflexivity.
Qed.

Lemma rect_map_grid W H f A : rect W H A -> rect W H (map_grid f A).
Proof.
  intros [Hl Hall]. split.
  - unfold map_grid. now rewrite length_map.
  - unfold map_grid. apply Forall_map.
    rewrite Forall_forall in *. intros row Hrow.
    rewrite length_map. now apply Hall.
Qed.

(** The optogenetic frame exists and has the grid's shape when the
    orientation map, and the opsin map if there is one, have that shape. *)
Lemma opto_frame_shape self os opsin W H :
  (0 < W)%nat -> (0 < H)%nat ->
  rect W H (SSNModel.orientation_map self) ->
  match opsin with Some m => rect W H m | None => True end ->
  exists o, SSNModel.opto_frame self os opsin = Ok o /\ shape o = (W, H).
Proof.
  intros HW HH Hom Hops. unfold SSNModel.opto_frame.
  assert (Hgen : exists o,
            OptogeneticStimulus.generate_input os (SSNModel.size self)
              (SSNModel.orientation_map self) = Ok o /\ shape o = (W, H)).
  { unfold OptogeneticStimulus.generate_input.
    set (oi := map_grid _ (OptogeneticStimulus.mask os _)).
    assert (Hoi : rect W H oi)
      by (unfold oi, OptogeneticStimulus.mask; now do 2 apply rect_map_grid).
    destruct (amax_nonempty W H oi Hoi HW HH) as [m ->]. cbn [bind].
    destruct (Rlt_dec 0 m); eexists; (split; [reflexivity|]).
    - rewrite shape_map_grid. now apply rect_shape.
    - now apply rect_shape. }
  destruct Hgen as [o [-> Ho]]. cbn [bind].
  destruct opsin as [m|].
  - unfold SSNModel.apply_opsin_map, multiply.
    rewrite (broadcast2_same_shape _ _ _ W H Ho (rect_shape _ _ _ Hops HW)).
    eexists. split; [reflexivity | now apply shape_tabulate].
  - now exists o.
Qed.

Lemma shape_visual vs W H :
  (0 < W)%nat -> shape (VisualStimulus.generate_input vs (W, H)) = (W, H).
Proof. intros HW. unfold VisualStimulus.generate_input. now apply shape_tabulate. Qed.

(** On a non-empty grid whose orientation map and opsin map have the
    configured size, and for a non-negative number of time bins, [run_trial]
    returns a trace of shape [(W, H, time_bins)]. *)
Lemma run_trial_returns self vs os d b opsin W H T :
  SSNModel.size self = (W, H) -> (0 < W)%nat -> (0 < H)%nat ->
  rect W H (SSNModel.orientation_map self) ->
  match opsin with Some m => rect W H m | None => True end ->
  SSNModel.time_bins d b = Ok T -> (0 <= T)%Z ->
  exists tr, SSNModel.run_trial self vs os d b opsin = Ok tr /\
             rect3 W H (Z.to_nat T) tr.
Proof.
  intros Hsize HW HH Hom Hops HT HT0. unfold SSNModel.run_trial.
  rewrite HT. cbn [bind]. unfold zeros3.
  destruct (Z.ltb_spec T 0) as [Hneg|_]; [lia|]. cbn [bind].
  destruct (opto_frame_shape self os opsin W H HW HH Hom Hops) as [o [-> Ho]].
  cbn [bind]. rewrite Hsize. cbn [fst snd].
  apply trial_loop_returns; try assumption.
  - now apply shape_visual.
  - now apply shape_tabulate.
  - apply rect3_tabulate3.
Qed.

End Trials.

(** ** Trials without drive *)

Section ZeroDrive.

Import Np.
Open Scope R_scope.

Lemma get_zeros W H i j : get (zeros W H) i j = 0.
Proof.
  apply (get_all_cells (fun x => x = 0)); [|reflexivity].
  unfold zeros. apply all_cells_tabulate. reflexivity.
Qed.

Lemma fold_left_fixed {A B : Type} (f : A -> B -> A) (l : list B) (a : A) :
  (forall x y, f x y = x) -> fold_left f l a = a.
Proof.
  intros H. induction l as [|y l IH]; simpl; [reflexivity|].
  now rewrite H.
Qed.

(** The convolution of the all-zero grid is all-zero, for every kernel. *)
Lemma convolve_zeros W H kernel :
  SSNModel.convolve_with_kernel (zeros W H) kernel = zeros W H.
Proof.
  unfold SSNModel.convolve_with_kernel.
  destruct W as [|W].
  - unfold convolve2d_same_wrap. destruct (shape kernel). reflexivity.
  - destruct (shape kernel) as [kr kc] eqn:HK.
    rewrite (convolve2d_same_wrap_eq _ _ (S W) H kr kc);
      [ | apply shape_tabulate; lia | exact HK ].
    apply tabulate_ext. intros m n _ _.
    apply fold_left_fixed. intros acc j.
    apply fold_left_fixed. intros acc' k.
    rewrite get_zeros. ring.
Qed.

Lemma broadcast2_zeros f W H :
  f 0 0 = 0 -> (0 < W)%nat ->
  broadcast2 f (zeros W H) (zeros W H) = Ok (zeros W H).
Proof.
  intros Hf HW.
  rewrite (broadcast2_same_shape _ _ _ W H)
    by (apply shape_tabulate; exact HW).
  f_equal. apply tabulate_ext. intros i j _ _.
  now rewrite !get_zeros.
Qed.

(** Without drive the all-zero state is a fixed point of the step. *)
Lemma step_zero self W H :
  (0 < W)%nat -> 0 < SSNModel.n self ->
  SSNModel.step self (zeros W H) (zeros W H) (zeros W H) = Ok (zeros W H).
Proof.
  intros HW Hn. unfold SSNModel.step. rewrite !convolve_zeros.
  unfold add, subtract.
  rewrite broadcast2_zeros by (try exact HW; ring). cbn [bind].
  rewrite broadcast2_zeros by (try exact HW; ring). cbn [bind].
  rewrite broadcast2_zeros by (try exact HW; ring). cbn [bind].
  f_equal. unfold SSNModel.supralinear_transfer_function, zeros.
  rewrite map_grid_tabulate. apply tabulate_ext. intros i j _ _.
  now apply power_0.
Qed.

Lemma trial_loop_zero self W H T :
  (0 < W)%nat -> (0 < H)%nat -> 0 < SSNModel.n self ->
  forall ts,
    SSNModel.trial_loop self (zeros W H) (zeros W H) ts (zeros W H)
                        (tabulate3 W H T (fun _ _ _ => 0)) =
    Ok (tabulate3 W H T (fun _ _ _ => 0)).
Proof.
  intros HW HH Hn. induction ts as [|t ts IH]; simpl; [reflexivity|].
  rewrite step_zero by assumption. cbn [bind].
  rewrite (set_last_axis_same_shape _ _ _ W H T);
    [ | now apply shape3_tabulate3 | now apply shape_tabulate ].
  cbn [bind].
  replace (tabulate3 W H T _) with (tabulate3 W H T (fun _ _ _ => 0)).
  - exact IH.
  - apply tabulate3_ext. intros i j k Hi Hj Hk.
    destruct (k =? t).
    + now rewrite get_zeros.
    + now rewrite get3_tabulate3.
Qed.

(** A visual stimulus of contrast 0 is the all-zero frame. *)
Lemma visual_zero_contrast vs W H :
  VisualStimulus.contrast vs = 0 ->
  VisualStimulus.generate_input vs (W, H) = zeros W H.
Proof.
  intros Hc. unfold VisualStimulus.generate_input, zeros.
  apply tabulate_ext. intros i j _ _. rewrite Hc. ring.
Qed.

(** An optogenetic stimulus of power 0 is the all-zero frame. *)
Lemma opto_zero_power os gs om W H :
  OptogeneticStimulus.power os = 0 ->
  rect W H om -> (0 < W)%nat -> (0 < H)%nat ->
  OptogeneticStimulus.generate_input os gs om = Ok (zeros W H).
Proof.
  intros Hp Hom HW HH. unfold OptogeneticStimulus.generate_input.
  assert (Hz : map_grid (fun v => v * OptogeneticStimulus.power os)
                        (OptogeneticStimulus.mask os om) = zeros W H).
  { unfold OptogeneticStimulus.mask. rewrite map_grid_map_grid.
    rewrite (rect_tabulate_get _ _ _ Hom) at 1.
    rewrite map_grid_tabulate. unfold zeros.
    apply tabulate_ext. intros i j _ _. rewrite Hp. ring. }
  rewrite Hz.
  assert (Hmax : amax (zeros W H) = Ok 0).
  { apply amax_attained.
    - destruct W as [|W]; [lia|]. destruct H as [|H]; [lia|].
      simpl. now left.
    - intros y Hy. apply in_concat_tabulate in Hy.
      destruct Hy as [i [j [_ [_ ->]]]]. lra. }
  rewrite Hmax. cbn [bind].
  destruct (Rlt_dec 0 0) as [Hlt|_]; [lra | reflexivity].
Qed.

(** For every kernel pair and every positive exponent, a trial whose visual
    and optogenetic frames are all-zero keeps the all-zero state at every
    step: the trace is all-zero at every cell of every time bin. *)
Lemma run_trial_zero_drive self vs os d b opsin W H T :
  SSNModel.size self = (W, H) -> (0 < W)%nat -> (0 < H)%nat ->
  0 < SSNModel.n self ->
  VisualStimulus.generate_input vs (W, H) = zeros W H ->
  SSNModel.opto_frame self os opsin = Ok (zeros W H) ->
  SSNModel.time_bins d b = Ok T -> (0 <= T)%Z ->
  SSNModel.run_trial self vs os d b opsin =
  Ok (tabulate3 W H (Z.to_nat T) (fun _ _ _ => 0)).
Proof.
  intros Hsize HW HH Hn Hv Ho HT HT0. unfold SSNModel.run_trial.
  rewrite HT. cbn [bind]. unfold zeros3.
  destruct (Z.ltb_spec T 0) as [Hneg|_]; [lia|]. cbn [bind].
  rewrite Ho. cbn [bind]. rewrite Hsize. cbn [fst snd]. rewrite Hv.
  now apply trial_loop_zero.
Qed.

End ZeroDrive.

(** ** The time configuration *)

Section TimeConfiguration.

Import Np.

(** [int(0.3 / 0.1)]: the binary64 quotient is [2.9999999999999996]. *)
Lemma time_bins_main :
  SSNModel.time_bins Main.trial_duration Main.bin_size = Ok 2%Z.
Proof. vm_compute. reflexivity. Qed.

(** [int(1.2 / 0.05)]: the binary64 quotient is [23.999999999999996], one
    short of the 24 frames per trial that [config.py] documents. *)
Lemma time_bins_config :
  Config.TIME_BINS = Ok 23%Z /\ Config.num_frames = 24%Z.
Proof. split; vm_compute; reflexivity. Qed.

Lemma time_bins_short :
  SSNModel.time_bins EndToEnd.short_duration Main.bin_size = Ok 0%Z.
Proof. vm_compute. reflexivity. Qed.

(** Where the quotient is exact the count is the expected one. *)
Lemma time_bins_exact :
  SSNModel.time_bins 0.75%float 0.25%float = Ok 3%Z /\
  SSNModel.time_bins 3%float 1%float = Ok 3%Z.
Proof. split; vm_compute; reflexivity. Qed.

(** A zero bin size and a negative duration. *)
Lemma time_bins_errors :
  SSNModel.time_bins 0.3%float 0%float = Raise ZeroDivisionError /\
  SSNModel.time_bins (-0.3)%float 0.1%float = Ok (-2)%Z.
Proof. split; vm_compute; reflexivity. Qed.

(** With no time bin the loop body never runs; a negative count stops at
    the allocation of the trace. *)
Lemma run_trial_no_bins self vs os d b opsin o :
  SSNModel.time_bins d b = Ok 0%Z ->
  SSNModel.opto_frame self os opsin = Ok o ->
  SSNModel.run_trial self vs os d b opsin =
  Ok (tabulate3 (fst (SSNModel.size self)) (snd (SSNModel.size self)) 0
                (fun _ _ _ => 0%R)).
Proof.
  intros HT Ho. unfold SSNModel.run_trial.
  rewrite HT. cbn [bind]. unfold zeros3. cbn [Z.ltb Z.compare bind Z.to_nat].
  rewrite Ho. cbn [bind seq SSNModel.trial_loop]. reflexivity.
Qed.

Lemma run_trial_negative_bins self vs os d b opsin T :
  SSNModel.time_bins d b = Ok T -> (T < 0)%Z ->
  SSNModel.run_trial self vs os d b opsin = Raise ValueError.
Proof.
  intros HT Hneg. unfold SSNModel.run_trial.
  rewrite HT. cbn [bind]. unfold zeros3.
  destruct (Z.ltb_spec T 0) as [_|Hge]; [reflexivity | lia].
Qed.

End TimeConfiguration.

(** ** The engine of the end-to-end configuration *)

Section EndToEndFacts.

Import Np.
Open Scope R_scope.

Lemma rect_orientation_field : rect 8 8 EndToEnd.orientation_field.
Proof. apply rect_tabulate. Qed.

(** [SSNModel.__init__] on the constant field returns the engine
    [EndToEnd.model]. *)
Lemma init_end_to_end :
  SSNModel.init EndToEnd.orientation_field (8%nat, 8%nat) 2 1 1 2 =
  Ok EndToEnd.model.
Proof.
  unfold SSNModel.init, SSNModel.create_ssn_connectivity.
  rewrite (unnormalized_kernels_cells _ 8 8)
    by (try apply rect_orientation_field; lia).
  reflexivity.
Qed.

Lemma opto_frame_end_to_end e i tuning ncols area :
  SSNModel.opto_frame (EndToEnd.model_with e i)
    {| OptogeneticStimulus.column_tuning := tuning;
       OptogeneticStimulus.num_columns := ncols;
       OptogeneticStimulus.column_area := area;
       OptogeneticStimulus.power := 0 |} None =
  Ok (zeros 8 8).
Proof.
  unfold SSNModel.opto_frame.
  rewrite (opto_zero_power _ _ _ 8 8);
    [ reflexivity | reflexivity | apply rect_orientation_field | lia | lia ].
Qed.

End EndToEndFacts.

(** * The claims *)

Section Claims.

Import Np.
Open Scope R_scope.

(** C1. End-to-end configuration: orientation field constant 0 on an 8x8
    grid, [sigma_e = 2], [sigma_i = 1], [n = 2], visual contrast 0,
    optogenetic power 0, [trial_duration = 0.3], [bin_size = 0.1], no opsin
    map.  For every kernel pair and every choice of the remaining stimulus
    parameters [run_trial] returns an all-zero trace; it has shape 8x8x2,
    because [int(0.3 / 0.1)] is 2. *)
Theorem run_trial_end_to_end_zero :
  forall (e i : grid) (orientation frequency size onset tuning area : R)
         (ncols : nat),
    SSNModel.run_trial (EndToEnd.model_with e i)
      {| VisualStimulus.orientation := orientation;
         VisualStimulus.spatial_frequency := frequency;
         VisualStimulus.contrast := 0;
         VisualStimulus.size := size;
         VisualStimulus.onset := onset |}
      {| OptogeneticStimulus.column_tuning := tuning;
         OptogeneticStimulus.num_columns := ncols;
         OptogeneticStimulus.column_area := area;
         OptogeneticStimulus.power := 0 |}
      Main.trial_duration Main.bin_size None =
    Ok (tabulate3 8 8 2 (fun _ _ _ => 0)).
Proof.
  intros e i orientation frequency size onset tuning area ncols.
  apply (run_trial_zero_drive _ _ _ _ _ _ 8 8 2).
  - reflexivity.
  - lia.
  - lia.
  - simpl. lra.
  - now apply visual_zero_contrast.
  - apply opto_frame_end_to_end.
  - apply time_bins_main.
  - lia.
Qed.

(** C2. With the time configuration of [main.py], [trial_duration = 0.3]
    and [bin_size = 0.1], the trace that [run_trial] returns on the 8x8
    engine has shape 8x8x2, for every kernel pair and every pair of stimuli:
    [time_bins] is [int(0.3 / 0.1) = 2], not 3.  In the same way the
    [TIME_BINS] of [config.py] is 23 where 24 frames are documented. *)
Theorem run_trial_main_time_bins :
  forall (e i : grid) (vs : VisualStimulus.t) (os : OptogeneticStimulus.t),
    SSNModel.time_bins Main.trial_duration Main.bin_size = Ok 2%Z /\
    Config.TIME_BINS = Ok 23%Z /\
    exists tr,
      SSNModel.run_trial (EndToEnd.model_with e i) vs os
        Main.trial_duration Main.bin_size None = Ok tr /\
      rect3 8 8 2 tr /\ shape3 tr = (8%nat, 8%nat, 2%nat).
Proof.
  intros e i vs os.
  split; [apply time_bins_main|]. split; [apply time_bins_config|].
  destruct (run_trial_returns (EndToEnd.model_with e i) vs os
              Main.trial_duration Main.bin_size None 8 8 2)
    as [tr [Hrun Hrect]];
    try solve [reflexivity | lia | exact I
               | apply rect_orientation_field | apply time_bins_main].
  exists tr. split; [exact Hrun|]. split; [exact Hrect|].
  apply rect3_shape3; [exact Hrect | lia | lia].
Qed.

(** C3. For every orientation field on which the kernels are defined (a
    non-empty field of shape [(r, c)] with [r = c], or with one axis of
    length 1) and every [sigma_e > 0], [sigma_i > 0], kernel construction
    returns the two unnormalized kernels each divided by its own sum; both
    sums are nonzero, and each returned kernel sums to 1, hence also within
    the tolerance [1e-9]. *)
Theorem create_ssn_connectivity_sums_to_1 :
  forall (om : grid) (r c : nat) (sigma_e sigma_i : R),
    rect r c om -> (0 < r)%nat -> (0 < c)%nat ->
    r = c \/ r = 1%nat \/ c = 1%nat ->
    0 < sigma_e -> 0 < sigma_i ->
    exists ue ui,
      SSNModel.unnormalized_kernels om sigma_e sigma_i = Ok (ue, ui) /\
      sum ue <> 0 /\ sum ui <> 0 /\
      SSNModel.create_ssn_connectivity om sigma_e sigma_i =
        Ok (map_grid (fun v => v / sum ue) ue,
            map_grid (fun v => v / sum ui) ui) /\
      sum (map_grid (fun v => v / sum ue) ue) = 1 /\
      sum (map_grid (fun v => v / sum ui) ui) = 1 /\
      Rabs (sum (map_grid (fun v => v / sum ue) ue) - 1) <= 1 / 10 ^ 9 /\
      Rabs (sum (map_grid (fun v => v / sum ui) ui) - 1) <= 1 / 10 ^ 9.
Proof.
  intros om r c sigma_e sigma_i Hrect Hr Hc Hb He Hi.
  pose proof (kernel_sum_ge_1 om r c sigma_e Hr Hc Hb He) as Hse.
  pose proof (kernel_sum_ge_1 om r c sigma_i Hr Hc Hb Hi) as Hsi.
  eexists. eexists.
  split; [apply (unnormalized_kernels_cells om r c); assumption|].
  split; [lra|]. split; [lra|].
  split.
  { unfold SSNModel.create_ssn_connectivity.
    rewrite (unnormalized_kernels_cells om r c) by assumption.
    reflexivity. }
  assert (H1 : forall k, 1 <= sum k -> sum (map_grid (fun v => v / sum k) k) = 1).
  { intros k Hk. apply sum_normalize. lra. }
  rewrite !H1 by assumption.
  replace (1 - 1) with 0 by ring. rewrite Rabs_R0.
  assert (0 < 1 / 10 ^ 9).
  { apply Rdiv_lt_0_compat; [lra | apply pow_lt; lra]. }
  repeat split; lra.
Qed.

(** The theorem at a 2x2 field with [sigma_e = 2] and [sigma_i = 1]. *)
Lemma create_ssn_connectivity_sums_to_1_witness :
  exists ue ui,
    SSNModel.unnormalized_kernels [[0; 90]; [45; 135]] 2 1 = Ok (ue, ui) /\
    sum ue <> 0 /\ sum ui <> 0 /\
    SSNModel.create_ssn_connectivity [[0; 90]; [45; 135]] 2 1 =
      Ok (map_grid (fun v => v / sum ue) ue,
          map_grid (fun v => v / sum ui) ui) /\
    sum (map_grid (fun v => v / sum ue) ue) = 1 /\
    sum (map_grid (fun v => v / sum ui) ui) = 1 /\
    Rabs (sum (map_grid (fun v => v / sum ue) ue) - 1) <= 1 / 10 ^ 9 /\
    Rabs (sum (map_grid (fun v => v / sum ui) ui) - 1) <= 1 / 10 ^ 9.
Proof.
  apply (create_ssn_connectivity_sums_to_1 [[0; 90]; [45; 135]] 2 2 2 1).
  - split; [reflexivity | repeat constructor].
  - lia.
  - lia.
  - left. reflexivity.
  - lra.
  - lra.
Defined.

(** C7, as stated, fails: a trial of 50 ms in bins of 100 ms has
    [int(0.05 / 0.1) = 0] time bins, and [run_trial] returns the empty
    8x8x0 trace instead of rejecting the trial. *)
Lemma run_trial_short_trial_returns :
  SSNModel.time_bins EndToEnd.short_duration Main.bin_size = Ok 0%Z /\
  SSNModel.run_trial EndToEnd.model EndToEnd.visual_stim EndToEnd.opto_stim
    EndToEnd.short_duration Main.bin_size None =
  Ok (tabulate3 8 8 0 (fun _ _ _ => 0)).
Proof.
  split; [apply time_bins_short|].
  apply (run_trial_no_bins EndToEnd.model _ _ _ _ None (zeros 8 8)).
  - apply time_bins_short.
  - apply opto_frame_end_to_end.
Qed.

(** C7, amended. [run_trial] has no validation of the time configuration.
    When [int(trial_duration / bin_size)] is negative the trial stops with
    the [ValueError] of the allocation of the trace, before the frames are
    generated and before any step; when it is 0, and the optogenetic frame
    can be generated, no step is taken and the trace with zero time bins is
    returned. *)
Theorem run_trial_without_time_bins :
  forall (self : SSNModel.t) (vs : VisualStimulus.t)
         (os : OptogeneticStimulus.t) (d b : float) (opsin : option grid)
         (T : Z),
    SSNModel.time_bins d b = Ok T -> (T < 1)%Z ->
    ((T < 0)%Z ->
     SSNModel.run_trial self vs os d b opsin = Raise ValueError) /\
    (T = 0%Z ->
     forall o, SSNModel.opto_frame self os opsin = Ok o ->
       SSNModel.run_trial self vs os d b opsin =
       Ok (tabulate3 (fst (SSNModel.size self)) (snd (SSNModel.size self)) 0
                     (fun _ _ _ => 0))).
Proof.
  intros self vs os d b opsin T HT _. split.
  - intros Hneg. now apply (run_trial_negative_bins _ _ _ _ _ _ T).
  - intros -> o Ho. now apply (run_trial_no_bins _ _ _ _ _ _ o).
Qed.

(** The theorem at a trial of 50 ms in bins of 100 ms. *)
Lemma run_trial_without_time_bins_witness :
  ((0 < 0)%Z ->
   SSNModel.run_trial EndToEnd.model EndToEnd.visual_stim EndToEnd.opto_stim
     EndToEnd.short_duration Main.bin_size None = Raise ValueError) /\
  (0%Z = 0%Z ->
   forall o, SSNModel.opto_frame EndToEnd.model EndToEnd.opto_stim None = Ok o ->
     SSNModel.run_trial EndToEnd.model EndToEnd.visual_stim EndToEnd.opto_stim
       EndToEnd.short_duration Main.bin_size None =
     Ok (tabulate3 (fst (SSNModel.size EndToEnd.model))
                   (snd (SSNModel.size EndToEnd.model)) 0
                   (fun _ _ _ => 0))).
Proof.
  apply (run_trial_without_time_bins EndToEnd.model EndToEnd.visual_stim
           EndToEnd.opto_stim EndToEnd.short_duration Main.bin_size None 0).
  - vm_compute. reflexivity.
  - lia.
Defined.

(** C8. For every orientation field on which the kernels are defined (a
    non-empty field of shape [(r, c)] with [r = c], or with one axis of
    length 1) and every [sigma_e > 0], [sigma_i > 0], each unnormalized
    kernel has the value 1 at its center cell, where the distance and the
    orientation difference are 0, and no cell of the kernel exceeds the
    center cell.  The kernel has shape [(max r c, max r c)]; for a square
    field its center is the [center] of the code. *)
Theorem unnormalized_kernel_maximal_at_center :
  forall (om : grid) (r c : nat) (sigma_e sigma_i : R),
    rect r c om -> (0 < r)%nat -> (0 < c)%nat ->
    r = c \/ r = 1%nat \/ c = 1%nat ->
    0 < sigma_e -> 0 < sigma_i ->
    exists ue ui,
      SSNModel.unnormalized_kernels om sigma_e sigma_i = Ok (ue, ui) /\
      rect (Nat.max r c) (Nat.max r c) ue /\
      rect (Nat.max r c) (Nat.max r c) ui /\
      get ue (Nat.max r c / 2) (Nat.max r c / 2) = 1 /\
      get ui (Nat.max r c / 2) (Nat.max r c / 2) = 1 /\
      all_cells (fun v => v <= get ue (Nat.max r c / 2) (Nat.max r c / 2)) ue /\
      all_cells (fun v => v <= get ui (Nat.max r c / 2) (Nat.max r c / 2)) ui.
Proof.
  intros om r c sigma_e sigma_i Hrect Hr Hc Hb He Hi.
  eexists. eexists.
  split; [apply (unnormalized_kernels_cells om r c); assumption|].
  assert (Hmid : (Nat.max r c / 2 < Nat.max r c)%nat)
    by (apply Nat.Div0.div_lt_upper_bound; lia).
  split; [apply rect_tabulate|]. split; [apply rect_tabulate|].
  rewrite !get_tabulate by exact Hmid.
  rewrite !kernel_weight_center by assumption.
  split; [reflexivity|]. split; [reflexivity|].
  split; apply all_cells_tabulate; intros i j _ _;
    now apply kernel_weight_bounds.
Qed.

(** The theorem at a 2x2 field with [sigma_e = 2] and [sigma_i = 1]. *)
Lemma unnormalized_kernel_maximal_at_center_witness :
  exists ue ui,
    SSNModel.unnormalized_kernels [[0; 90]; [45; 135]] 2 1 = Ok (ue, ui) /\
    rect (Nat.max 2 2) (Nat.max 2 2) ue /\
    rect (Nat.max 2 2) (Nat.max 2 2) ui /\
    get ue (Nat.max 2 2 / 2) (Nat.max 2 2 / 2) = 1 /\
    get ui (Nat.max 2 2 / 2) (Nat.max 2 2 / 2) = 1 /\
    all_cells (fun v => v <= get ue (Nat.max 2 2 / 2) (Nat.max 2 2 / 2)) ue /\
    all_cells (fun v => v <= get ui (Nat.max 2 2 / 2) (Nat.max 2 2 / 2)) ui.
Proof.
  apply (unnormalized_kernel_maximal_at_center [[0; 90]; [45; 135]] 2 2 2 1).
  - split; [reflexivity | repeat constructor].
  - lia.
  - lia.
  - left. reflexivity.
  - lra.
  - lra.
Defined.

End Claims.

(** ** The stepping loop in binary64 *)

Section Binary64Facts.

Import Binary64.

(** The sign of a cell decides whether it is [not_negative]. *)
Lemma not_negative_sign (x : float) :
  match Prim2SF x with
  | S754_zero _ | S754_nan => True
  | S754_infinity s | S754_finite s _ _ => s = false
  end -> not_negative x.
Proof.
  unfold not_negative, PrimFloat.is_nan.
  rewrite FloatAxioms.leb_spec, FloatAxioms.eqb_spec.
  change (Prim2SF 0) with (S754_zero false).
  destruct (Prim2SF x) as [s | s | | s m e]; cbn; intros H; subst; auto.
Qed.

Lemma not_negative_0 : not_negative 0.
Proof. left. reflexivity. Qed.

(** A rounded product of a number with itself carries the sign [+]. *)
Lemma SF64mul_self_sign (s : spec_float) :
  match SF64mul s s with
  | S754_zero _ | S754_nan => True
  | S754_infinity b | S754_finite b _ _ => b = false
  end.
Proof.
  destruct s as [b | b | | b m e]; cbn; try (destruct b; reflexivity); auto.
  unfold SF64mul, SFmul, binary_round_aux.
  rewrite xorb_nilpotent.
  destruct (shr_fexp _ _ _ _ _) as [mrs' e'].
  destruct (shr_fexp _ _ _ _ _) as [mrs'' e''].
  destruct (shr_m mrs''); auto.
  destruct (Z.leb _ _); reflexivity.
Qed.

(** The square is never negative, whatever its argument: this is the
    transfer of the default exponent. *)
Lemma square_not_negative (x n : float) : not_negative (square x n).
Proof.
  apply not_negative_sign. unfold square.
  rewrite FloatAxioms.mul_spec. apply SF64mul_self_sign.
Qed.

(** [np.maximum(0, x)] is [+0], positive, [+inf] or nan: its sign bit is
    clear, also for [x = -0.0], where the first argument is returned. *)
Lemma maximum_0_sign (x : float) : PrimFloat.get_sign (maximum 0 x) = false.
Proof.
  unfold maximum.
  replace (PrimFloat.is_nan 0) with false by reflexivity.
  rewrite orb_false_r.
  destruct (PrimFloat.leb x 0) eqn:Hle; [reflexivity|].
  unfold PrimFloat.get_sign, PrimFloat.is_zero.
  rewrite FloatAxioms.leb_spec in Hle.
  rewrite FloatAxioms.eqb_spec.
  change (Prim2SF zero) with (S754_zero false) in *.
  change (Prim2SF 0) with (S754_zero false) in *.
  unfold SFleb, SFeqb in *.
  destruct (SFcompare (Prim2SF x) (S754_zero false)) as [[ | | ]|] eqn:Hc;
    try discriminate;
    (rewrite FloatAxioms.ltb_spec;
     change (Prim2SF zero) with (S754_zero false);
     unfold SFltb; now rewrite Hc).
Qed.

(** *** Shapes *)

Lemma b64_length_tabulate r c f : length (tabulate r c f) = r.
Proof. unfold tabulate. now rewrite length_map, length_seq. Qed.

Lemma b64_shape_tabulate r c f :
  (0 < r)%nat -> shape (tabulate r c f) = (r, c).
Proof.
  intros Hr. unfold shape. rewrite b64_length_tabulate. f_equal.
  destruct r as [|r]; [lia|].
  unfold tabulate. cbn [seq map hd].
  now rewrite length_map, length_seq.
Qed.

Lemma b64_rect_shape r c A : rect r c A -> (0 < r)%nat -> shape A = (r, c).
Proof.
  intros [Hl Hall] Hr. unfold shape. rewrite Hl. f_equal.
  destruct A as [|row A]; [simpl in Hl; lia|].
  simpl. now inversion Hall.
Qed.

Lemma b64_shape_map (g : float -> float) (A : grid) :
  shape (map (map g) A) = shape A.
Proof.
  unfold shape. rewrite length_map. f_equal.
  destruct A as [|row A]; simpl; [reflexivity | apply length_map].
Qed.

Lemma b64_shape_convolve A K r c :
  (0 < r)%nat -> shape A = (r, c) -> shape (convolve2d_same_wrap A K) = (r, c).
Proof.
  intros Hr HA. unfold convolve2d_same_wrap. rewrite HA.
  destruct (shape K) as [kr kc]. now apply b64_shape_tabulate.
Qed.

Lemma b64_broadcast2_same_shape f A B r c :
  shape A = (r, c) -> shape B = (r, c) ->
  broadcast2 f A B =
  Ok (tabulate r c (fun i j =>
        f (get A (Np.bidx r i) (Np.bidx c j))
          (get B (Np.bidx r i) (Np.bidx c j)))).
Proof.
  intros HA HB. unfold broadcast2. rewrite HA, HB.
  now rewrite 2 broadcast_dim_same.
Qed.

Lemma b64_rect3_tabulate3 r c t f : rect3 r c t (tabulate3 r c t f).
Proof.
  split; [unfold tabulate3; now rewrite length_map, length_seq|].
  unfold tabulate3. apply Forall_map, Forall_forall. intros i _. split.
  - now rewrite length_map, length_seq.
  - apply Forall_map, Forall_forall. intros j _.
    now rewrite length_map, length_seq.
Qed.

Lemma b64_rect3_shape3 W H T A :
  rect3 W H T A -> (0 < W)%nat -> (0 < H)%nat -> shape3 A = (W, H, T).
Proof.
  intros [Hl Hall] HW HH. unfold shape3. rewrite Hl.
  destruct A as [|row A]; [simpl in Hl; lia|].
  inversion Hall as [|? ? [Hrow Hcells] _]; subst. simpl.
  destruct row as [|ts row]; [simpl in HH; lia|].
  inversion Hcells; subst. reflexivity.
Qed.

Lemma b64_set_last_axis_same_shape A t G W H T :
  shape3 A = (W, H, T) -> shape G = (W, H) ->
  set_last_axis A t G =
  Ok (tabulate3 W H T (fun i j k =>
        if k =? t then get G (Np.bidx W i) (Np.bidx H j) else get3 A i j k)).
Proof.
  intros HA HG. unfold set_last_axis. rewrite HA, HG.
  now rewrite 2 Nat.eqb_refl.
Qed.

Lemma b64_step_same_shape power self v o cur W H :
  (0 < W)%nat ->
  shape v = (W, H) -> shape o = (W, H) -> shape cur = (W, H) ->
  exists cur', step power self v o cur = Ok cur' /\ shape cur' = (W, H).
Proof.
  intros HW Hv Ho Hc. unfold step, convolve_with_kernel, add, subtract.
  rewrite (b64_broadcast2_same_shape _ _ _ _ _ Hv Ho). cbn [bind].
  rewrite (b64_broadcast2_same_shape _ _ _ W H);
    [ | now apply b64_shape_tabulate | now apply b64_shape_convolve ].
  cbn [bind].
  rewrite (b64_broadcast2_same_shape _ _ _ W H);
    [ | now apply b64_shape_tabulate | now apply b64_shape_convolve ].
  cbn [bind]. eexists. split; [reflexivity|].
  unfold supralinear_transfer_function.
  rewrite b64_shape_map. now apply b64_shape_tabulate.
Qed.

Lemma b64_trial_loop_returns power self v o W H T :
  (0 < W)%nat -> (0 < H)%nat ->
  shape v = (W, H) -> shape o = (W, H) ->
  forall ts cur act,
    shape cur = (W, H) -> rect3 W H T act ->
    exists tr, trial_loop power self v o ts cur act = Ok tr /\ rect3 W H T tr.
Proof.
  intros HW HH Hv Ho. induction ts as [|t ts IH]; intros cur act Hc Hact; simpl.
  - now exists act.
  - destruct (b64_step_same_shape power self v o cur W H HW Hv Ho Hc)
      as [cur' [-> Hc']].
    cbn [bind].
    rewrite (b64_set_last_axis_same_shape _ _ _ W H T);
      [ | now apply b64_rect3_shape3 | exact Hc' ].
    cbn [bind]. apply IH; [exact Hc' | apply b64_rect3_tabulate3].
Qed.

(** *** Cells *)

Lemma b64_get_map (P : float -> Prop) (g : float -> float) (A : grid) i j :
  P 0%float -> (forall x, P (g x)) -> P (get (map (map g) A) i j).
Proof.
  intros H0 Hg. unfold get.
  destruct (nth_in_or_default i (map (map g) A) []) as [Hin | ->].
  - apply in_map_iff in Hin. destruct Hin as [row [<- _]].
    destruct (nth_in_or_default j (map g row) 0%float) as [Hin' | ->].
    + apply in_map_iff in Hin'. destruct Hin' as [x [<- _]]. apply Hg.
    + exact H0.
  - destruct j; exact H0.
Qed.

Lemma b64_get3_tabulate3 (P : float -> Prop) r c t f i j k :
  P 0%float -> (forall i j k, P (f i j k)) -> P (get3 (tabulate3 r c t f) i j k).
Proof.
  intros H0 Hf. unfold get3, tabulate3.
  destruct (nth_in_or_default i
              (map (fun i => map (fun j => map (f i j) (seq 0 t)) (seq 0 c))
                   (seq 0 r)) []) as [Hin | ->].
  - apply in_map_iff in Hin. destruct Hin as [i' [<- _]].
    destruct (nth_in_or_default j
                (map (fun j => map (f i' j) (seq 0 t)) (seq 0 c)) [])
      as [Hin' | ->].
    + apply in_map_iff in Hin'. destruct Hin' as [j' [<- _]].
      destruct (nth_in_or_default k (map (f i' j') (seq 0 t)) 0%float)
        as [Hin'' | ->].
      * apply in_map_iff in Hin''. destruct Hin'' as [k' [<- _]]. apply Hf.
      * exact H0.
    + destruct k; exact H0.
  - destruct j; destruct k; exact H0.
Qed.

Section Transfer.

Variable power : float -> float -> float.
Hypothesis power_range :
  forall x n : float, PrimFloat.get_sign x = false -> not_negative (power x n).

Lemma b64_step_not_negative self v o cur cur' :
  step power self v o cur = Ok cur' ->
  forall i j, not_negative (get cur' i j).
Proof.
  unfold step.
  destruct (add v o) as [s1|]; [cbn [bind] | discriminate].
  destruct (add s1 _) as [s2|]; [cbn [bind] | discriminate].
  destruct (subtract s2 _) as [total|]; [cbn [bind] | discriminate].
  intros [= <-] i j. unfold supralinear_transfer_function.
  apply (b64_get_map not_negative); [exact not_negative_0|].
  intros x. apply power_range, maximum_0_sign.
Qed.

Lemma b64_trial_loop_not_negative self v o ts :
  forall cur act tr,
    (forall i j k, not_negative (get3 act i j k)) ->
    trial_loop power self v o ts cur act = Ok tr ->
    forall i j k, not_negative (get3 tr i j k).
Proof.
  induction ts as [|t ts IH]; intros cur act tr Hact; simpl.
  - now intros [= <-].
  - destruct (step power self v o cur) as [cur'|] eqn:Hstep;
      [cbn [bind] | discriminate].
    destruct (set_last_axis act t cur') as [act'|] eqn:Hset;
      [cbn [bind] | discriminate].
    apply IH.
    unfold set_last_axis in Hset.
    destruct (shape3 act) as [[r c] tb]. destruct (shape cur') as [rg cg].
    destruct (_ && _); [|discriminate].
    injection Hset as <-. intros i j k.
    apply (b64_get3_tabulate3 not_negative); [exact not_negative_0|].
    intros i' j' k'. destruct (k' =? t).
    + eapply b64_step_not_negative. exact Hstep.
    + apply Hact.
Qed.

(** Whatever the shapes and values of the inputs, a trace that the loop
    returns has no negative cell. *)
Lemma b64_run_trial_not_negative self v o d b opsin tr :
  run_trial power self v o d b opsin = Ok tr ->
  forall i j k, not_negative (get3 tr i j k).
Proof.
  unfold run_trial.
  destruct (SSNModel.time_bins d b) as [T|]; [cbn [bind] | discriminate].
  unfold zeros3. destruct (T <? 0)%Z; [discriminate | cbn [bind]].
  destruct (match opsin with Some m => _ | None => _ end) as [o'|];
    [cbn [bind] | discriminate].
  apply b64_trial_loop_not_negative.
  intros i j k.
  apply (b64_get3_tabulate3 not_negative); [exact not_negative_0|].
  intros _ _ _. exact not_negative_0.
Qed.

End Transfer.

Lemma b64_run_trial_returns power self v o d b opsin W H T :
  size self = (W, H) -> (0 < W)%nat -> (0 < H)%nat ->
  rect W H v -> rect W H o ->
  match opsin with Some m => rect W H m | None => True end ->
  SSNModel.time_bins d b = Ok T -> (0 <= T)%Z ->
  exists tr, run_trial power self v o d b opsin = Ok tr /\
             rect3 W H (Z.to_nat T) tr.
Proof.
  intros Hsize HW HH Hv Ho Hops HT HT0. unfold run_trial.
  rewrite HT. cbn [bind]. unfold zeros3.
  destruct (Z.ltb_spec T 0) as [Hneg|_]; [lia|]. cbn [bind].
  assert (Hopto : exists o',
            match opsin with
            | Some m => apply_opsin_map o m
            | None => Ok o
            end = Ok o' /\ shape o' = (W, H)).
  { destruct opsin as [m|].
    - unfold apply_opsin_map, multiply.
      rewrite (b64_broadcast2_same_shape _ _ _ W H
                 (b64_rect_shape _ _ _ Ho HW) (b64_rect_shape _ _ _ Hops HW)).
      eexists. split; [reflexivity | now apply b64_shape_tabulate].
    - exists o. split; [reflexivity | now apply b64_rect_shape]. }
  destruct Hopto as [o' [-> Ho']]. cbn [bind].
  rewrite Hsize. cbn [fst snd].
  apply b64_trial_loop_returns; try assumption.
  - now apply b64_rect_shape.
  - now apply b64_shape_tabulate.
  - apply b64_rect3_tabulate3.
Qed.

(** C4, as stated, fails in binary64.  On a constant 2x2 field with the
    default spreads, exponent and time configuration (23 bins), an
    optogenetic drive of 100 at one cell (a frame of ones scaled by the
    opsin map) makes the activity grow until its square overflows: cell
    [(0, 0)] is [+inf] in bin 12, the recurrent terms of the next step are
    [inf - inf], and from bin 13 on every cell is nan, which is not
    [>= 0]. *)
Lemma run_trial_binary64_nan :
  exists tr : array3,
    run_trial square model_2x2 visual_frame_2x2 opto_frame_2x2
              Config.TRIAL_DURATION Config.BIN_SIZE (Some opsin_map_2x2)
      = Ok tr /\
    get3 tr 0 0 12 = infinity /\
    PrimFloat.is_nan (get3 tr 0 0 13) = true /\
    PrimFloat.leb 0 (get3 tr 0 0 13) = false /\
    PrimFloat.leb 0 (get3 tr 1 1 22) = false.
Proof.
  eexists. split; [vm_compute; reflexivity|].
  vm_compute. repeat split.
Qed.

(** C4, amended.  In binary64 no cell of the trace is ever negative: on
    well-shaped frames [run_trial] returns a trace of shape
    [(W, H, time_bins)], and each of its cells is [>= 0] ([+inf] included)
    or nan.  The clamp is what makes it so: [np.maximum(0, x)] has a clear
    sign bit, and the only assumption on [x ** n] is that it maps a base
    with a clear sign bit ([+0], positive, [+inf] or nan) to such a cell, as
    the square of the default exponent does. *)
Theorem run_trial_never_negative :
  forall (power : float -> float -> float) (self : Binary64.t)
         (visual_input opto_input : grid) (trial_duration bin_size : float)
         (opsin_map : option grid) (W H : nat) (T : Z),
    (forall x n : float,
       PrimFloat.get_sign x = false -> not_negative (power x n)) ->
    size self = (W, H) -> (0 < W)%nat -> (0 < H)%nat ->
    rect W H visual_input -> rect W H opto_input ->
    match opsin_map with Some m => rect W H m | None => True end ->
    SSNModel.time_bins trial_duration bin_size = Ok T -> (0 <= T)%Z ->
    exists tr : array3,
      run_trial power self visual_input opto_input trial_duration bin_size
                opsin_map = Ok tr /\
      rect3 W H (Z.to_nat T) tr /\
      forall i j k : nat,
        PrimFloat.leb 0 (get3 tr i j k) = true \/
        PrimFloat.is_nan (get3 tr i j k) = true.
Proof.
  intros power self v o d b opsin W H T Hpow Hsize HW HH Hv Ho Hops HT HT0.
  destruct (b64_run_trial_returns power self v o d b opsin W H T
              Hsize HW HH Hv Ho Hops HT HT0) as [tr [Hrun Hrect]].
  exists tr. split; [exact Hrun|]. split; [exact Hrect|].
  intros i j k.
  exact (b64_run_trial_not_negative power Hpow self v o d b opsin tr Hrun i j k).
Qed.

Lemma run_trial_never_negative_witness :
  exists tr : array3,
    run_trial square model_2x2 visual_frame_2x2 opto_frame_2x2
              Config.TRIAL_DURATION Config.BIN_SIZE (Some opsin_map_2x2)
      = Ok tr /\
    rect3 2 2 23 tr /\
    forall i j k : nat,
      PrimFloat.leb 0 (get3 tr i j k) = true \/
      PrimFloat.is_nan (get3 tr i j k) = true.
Proof.
  apply (run_trial_never_negative square model_2x2 visual_frame_2x2
           opto_frame_2x2 Config.TRIAL_DURATION Config.BIN_SIZE
           (Some opsin_map_2x2) 2 2 23).
  - intros x n _. apply square_not_negative.
  - reflexivity.
  - lia.
  - lia.
  - split; [reflexivity | repeat constructor].
  - split; [reflexivity | repeat constructor].
  - split; [reflexivity | repeat constructor].
  - vm_compute. reflexivity.
  - lia.
Defined.

End Binary64Facts.

(** ** The optogenetic frame cell by cell *)

Section OptogeneticCells.

Import Np.
Open Scope R_scope.

(** Indexing commutes with an elementwise operation, errors included. *)
Lemma lookup_map_grid f A i j :
  lookup (map_grid f A) i j =
  match lookup A i j with Ok v => Ok (f v) | Raise e => Raise e end.
Proof.
  unfold lookup, map_grid. rewrite nth_error_map.
  destruct (nth_error A i) as [row|]; [|reflexivity]. cbn [option_map].
  rewrite nth_error_map.
  now destruct (nth_error row j).
Qed.

(** C10. When at least one cell of the orientation map equals
    [column_tuning] and [power > 0], [generate_input] returns the 0/1
    indicator of the matching cells: the output has the cells of the map,
    a cell that equals [column_tuning] holds 1 and every other cell holds
    0.  The output is the same for every [power > 0] and every grid size
    passed: scaling by [power] and dividing by the maximum, which is
    [power], cancel. *)
Theorem generate_input_indicator :
  forall (self : OptogeneticStimulus.t) (grid_size : nat * nat)
         (orientation_map : grid),
    0 < OptogeneticStimulus.power self ->
    In (OptogeneticStimulus.column_tuning self) (concat orientation_map) ->
    exists o : grid,
      OptogeneticStimulus.generate_input self grid_size orientation_map
        = Ok o /\
      shape o = shape orientation_map /\
      (forall (i j : nat) (v : R),
         lookup orientation_map i j = Ok v ->
         (v = OptogeneticStimulus.column_tuning self ->
          lookup o i j = Ok 1) /\
         (v <> OptogeneticStimulus.column_tuning self ->
          lookup o i j = Ok 0)) /\
      (forall (i j : nat) (e : exn),
         lookup orientation_map i j = Raise e -> lookup o i j = Raise e) /\
      (forall (power' : R) (grid_size' : nat * nat),
         0 < power' ->
         OptogeneticStimulus.generate_input
           {| OptogeneticStimulus.column_tuning :=
                OptogeneticStimulus.column_tuning self;
              OptogeneticStimulus.num_columns :=
                OptogeneticStimulus.num_columns self;
              OptogeneticStimulus.column_area :=
                OptogeneticStimulus.column_area self;
              OptogeneticStimulus.power := power' |}
           grid_size' orientation_map = Ok o).
Proof.
  intros self gs om Hp Hin.
  exists (OptogeneticStimulus.mask self om).
  split; [now apply generate_input_scaled_mask|].
  split; [apply shape_map_grid|].
  split; [|split].
  - intros i j v Hv. unfold OptogeneticStimulus.mask.
    rewrite lookup_map_grid, Hv.
    destruct (Req_EM_T v (OptogeneticStimulus.column_tuning self)) as [He|Hne].
    + split; [reflexivity | intros Hc; now destruct Hc].
    + split; [intros Hc; now destruct Hne | reflexivity].
  - intros i j e He. unfold OptogeneticStimulus.mask.
    now rewrite lookup_map_grid, He.
  - intros p' gs' Hp'.
    now rewrite generate_input_scaled_mask.
Qed.

Lemma generate_input_indicator_witness :
  exists o : grid,
    OptogeneticStimulus.generate_input
      {| OptogeneticStimulus.column_tuning := 90;
         OptogeneticStimulus.num_columns := 10;
         OptogeneticStimulus.column_area := 50;
         OptogeneticStimulus.power := 3 |}
      (2%nat, 2%nat) [[0; 90]; [45; 135]] = Ok o /\
    shape o = (2%nat, 2%nat) /\
    (forall (i j : nat) (v : R),
       lookup [[0; 90]; [45; 135]] i j = Ok v ->
       (v = 90 -> lookup o i j = Ok 1) /\
       (v <> 90 -> lookup o i j = Ok 0)) /\
    (forall (i j : nat) (e : exn),
       lookup [[0; 90]; [45; 135]] i j = Raise e -> lookup o i j = Raise e) /\
    (forall (power' : R) (grid_size' : nat * nat),
       0 < power' ->
       OptogeneticStimulus.generate_input
         {| OptogeneticStimulus.column_tuning := 90;
            OptogeneticStimulus.num_columns := 10;
            OptogeneticStimulus.column_area := 50;
            OptogeneticStimulus.power := power' |}
         grid_size' [[0; 90]; [45; 135]] = Ok o).
Proof.
  apply (generate_input_indicator
           {| OptogeneticStimulus.column_tuning := 90;
              OptogeneticStimulus.num_columns := 10;
              OptogeneticStimulus.column_area := 50;
              OptogeneticStimulus.power := 3 |}
           (2%nat, 2%nat) [[0; 90]; [45; 135]]).
  - simpl. lra.
  - simpl. right. left. reflexivity.
Defined.

End OptogeneticCells.

(** * Further properties of the code *)

(** ** The periodic convolution as a double sum *)

Section ConvolutionAlgebra.

Import Np.
Open Scope R_scope.

Local Abbreviation rsum n f := (fold_right Rplus 0 (map f (seq 0 n))).

Lemma fold_left_Rplus_acc {A : Type} (g : A -> R) (l : list A) (a : R) :
  fold_left (fun acc k => acc + g k) l a = a + fold_right Rplus 0 (map g l).
Proof.
  revert a. induction l as [|k l IH]; intros a; simpl.
  - ring.
  - rewrite IH. ring.
Qed.

(** The accumulation loop of the convolution as a double sum. *)
Lemma fold_left_nested_sum {A B : Type} (g : A -> B -> R)
    (lj : list A) (lk : list B) (a : R) :
  fold_left (fun acc j => fold_left (fun acc' k => acc' + g j k) lk acc) lj a =
  a + fold_right Rplus 0
        (map (fun j => fold_right Rplus 0 (map (g j) lk)) lj).
Proof.
  revert a. induction lj as [|j lj IH]; intros a; simpl.
  - ring.
  - rewrite IH, fold_left_Rplus_acc. ring.
Qed.

Lemma convolve_tabulate A K r c kr kc :
  shape A = (r, c) -> shape K = (kr, kc) ->
  SSNModel.convolve_with_kernel A K =
  tabulate r c (fun m n => rsum kr (fun j => rsum kc (fun k =>
    get A (wrap (Z.of_nat m + Z.of_nat ((kr - 1) / 2) - Z.of_nat j) r)
          (wrap (Z.of_nat n + Z.of_nat ((kc - 1) / 2) - Z.of_nat k) c)
    * get K j k))).
Proof.
  intros HA HK. unfold SSNModel.convolve_with_kernel.
  rewrite (convolve2d_same_wrap_eq _ _ _ _ _ _ HA HK).
  apply tabulate_ext. intros m n Hm Hn.
  rewrite (fold_left_nested_sum
             (fun j k =>
                get A (wrap (Z.of_nat m + Z.of_nat ((kr - 1) / 2) - Z.of_nat j) r)
                      (wrap (Z.of_nat n + Z.of_nat ((kc - 1) / 2) - Z.of_nat k) c)
                * get K j k)).
  ring.
Qed.

(** X1. Convolving with a 1x1 kernel [[k]] multiplies every cell of the
    activity grid by [k]; with [k = 1] the grid is returned unchanged. *)
Theorem convolve_with_kernel_scalar_kernel :
  forall (activity : grid) (r c : nat) (k : R),
    rect r c activity ->
    SSNModel.convolve_with_kernel activity [[k]] =
    map_grid (fun v => v * k) activity /\
    SSNModel.convolve_with_kernel activity [[1]] = activity.
Proof.
  intros A r c k Hrect.
  assert (Hscal : forall k',
    SSNModel.convolve_with_kernel A [[k']] = map_grid (fun v => v * k') A).
  { intros k'. destruct r as [|r].
    - destruct Hrect as [Hl _]. apply length_zero_iff_nil in Hl. now subst A.
    - rewrite (convolve_tabulate A [[k']] (S r) c 1 1);
        [ | apply (rect_shape _ _ _ Hrect); lia | reflexivity ].
      transitivity (map_grid (fun v => v * k') (tabulate (S r) c (get A)));
        [ | f_equal; symmetry; now apply rect_tabulate_get ].
      rewrite map_grid_tabulate. apply tabulate_ext. intros m n Hm Hn.
      cbn [seq map fold_right Nat.sub Nat.div Nat.divmod fst].
      rewrite !Z.add_0_r, !Z.sub_0_r, !wrap_small by assumption.
      unfold get at 2. cbn [nth]. ring. }
  split; [apply Hscal|].
  rewrite Hscal. rewrite <- (map_grid_id A) at 2.
  apply map_grid_ext_in. intros x _. ring.
Qed.

Lemma convolve_with_kernel_scalar_kernel_witness :
  SSNModel.convolve_with_kernel [[1; 2]; [3; 4]] [[5]] =
  map_grid (fun v => v * 5) [[1; 2]; [3; 4]] /\
  SSNModel.convolve_with_kernel [[1; 2]; [3; 4]] [[1]] = [[1; 2]; [3; 4]].
Proof.
  apply (convolve_with_kernel_scalar_kernel [[1; 2]; [3; 4]] 2 2 5).
  split; [reflexivity | repeat constructor].
Defined.

End ConvolutionAlgebra.

(** ** The states of a trial *)

Section Trajectories.

Import Np.
Open Scope R_scope.

(** The new state cell by cell, for frames and a state of one shape. *)
Lemma step_cells self v o cur W H :
  (0 < W)%nat ->
  shape v = (W, H) -> shape o = (W, H) -> shape cur = (W, H) ->
  SSNModel.step self v o cur =
  Ok (tabulate W H (fun i j =>
        power (Rmax 0 (get v i j + get o i j
                       + get (SSNModel.convolve_with_kernel cur
                                (SSNModel.exc_conn self)) i j
                       - get (SSNModel.convolve_with_kernel cur
                                (SSNModel.inh_conn self)) i j))
              (SSNModel.n self))).
Proof.
  intros HW Hv Ho Hc. unfold SSNModel.step, add, subtract.
  rewrite (broadcast2_same_shape _ _ _ _ _ Hv Ho). cbn [bind].
  rewrite (broadcast2_same_shape _ _ _ W H);
    [ | now apply shape_tabulate
      | unfold SSNModel.convolve_with_kernel; now rewrite shape_convolve ].
  cbn [bind].
  rewrite (broadcast2_same_shape _ _ _ W H);
    [ | now apply shape_tabulate
      | unfold SSNModel.convolve_with_kernel; now rewrite shape_convolve ].
  cbn [bind]. f_equal.
  unfold SSNModel.supralinear_transfer_function.
  rewrite map_grid_tabulate. apply tabulate_ext. intros i j Hi Hj.
  rewrite !bidx_same by assumption.
  rewrite !get_tabulate by assumption.
  rewrite !bidx_same by assumption.
  rewrite !get_tabulate by assumption.
  rewrite !bidx_same by assumption.
  reflexivity.
Qed.

(** The loop over the time bins [a, a + len): the slices it visits hold the
    successive states, the others are left as they were. *)
Lemma trial_loop_slices self v o W H T :
  (0 < W)%nat -> (0 < H)%nat ->
  shape v = (W, H) -> shape o = (W, H) ->
  forall len a cur act,
    shape cur = (W, H) -> rect3 W H T act -> (a + len <= T)%nat ->
    exists tr,
      SSNModel.trial_loop self v o (seq a len) cur act = Ok tr /\
      rect3 W H T tr /\
      forall i j t, (i < W)%nat -> (j < H)%nat -> (t < T)%nat ->
        ((a <= t < a + len)%nat ->
         exists s, Trajectory.state_after self v o (S (t - a)) cur = Ok s /\
                   get3 tr i j t = get s i j) /\
        (~ (a <= t < a + len)%nat -> get3 tr i j t = get3 act i j t).
Proof.
  intros HW HH Hv Ho. induction len as [|len IH]; intros a cur act Hc Hact Hle.
  - exists act. split; [reflexivity|]. split; [exact Hact|].
    intros i j t _ _ _. split; [lia | reflexivity].
  - cbn [seq SSNModel.trial_loop].
    destruct (step_same_shape self v o cur W H HW Hv Ho Hc) as [cur' [Hstep Hc']].
    rewrite Hstep. cbn [bind].
    rewrite (set_last_axis_same_shape _ _ _ W H T);
      [ | now apply rect3_shape3 | exact Hc' ].
    cbn [bind].
    set (act' := tabulate3 W H T _).
    destruct (IH (S a) cur' act' Hc' (rect3_tabulate3 W H T _) ltac:(lia))
      as [tr [Hrun [Hrect Hsl]]].
    exists tr. split; [exact Hrun|]. split; [exact Hrect|].
    intros i j t Hi Hj Ht.
    destruct (Hsl i j t Hi Hj Ht) as [Hin Hout].
    split.
    + intros Hrange. destruct (Nat.eq_dec t a) as [->|Hne].
      * exists cur'. split.
        -- rewrite Nat.sub_diag. cbn [Trajectory.state_after].
           rewrite Hstep. reflexivity.
        -- rewrite Hout by lia. unfold act'.
           rewrite get3_tabulate3 by assumption.
           rewrite Nat.eqb_refl. now rewrite !bidx_same.
      * destruct (Hin ltac:(lia)) as [s [Hs Hget]].
        exists s. split; [|exact Hget].
        replace (t - a)%nat with (S (t - S a)) by lia.
        cbn [Trajectory.state_after]. rewrite Hstep. cbn [bind]. exact Hs.
    + intros Hrange. rewrite Hout by lia. unfold act'.
      rewrite get3_tabulate3 by assumption.
      destruct (Nat.eqb_spec t a) as [->|_]; [lia | reflexivity].
Qed.

(** X5. On well-shaped inputs the trace that [run_trial] returns holds, in
    time bin [t], the state after [t + 1] updates from the all-zero state:
    slice [t] is not touched again after it is stored. *)
Theorem run_trial_slices_are_states :
  forall (self : SSNModel.t) (vs : VisualStimulus.t)
         (os : OptogeneticStimulus.t) (d b : float) (opsin : option grid)
         (W H : nat) (T : Z),
    SSNModel.size self = (W, H) -> (0 < W)%nat -> (0 < H)%nat ->
    rect W H (SSNModel.orientation_map self) ->
    match opsin with Some m => rect W H m | None => True end ->
    SSNModel.time_bins d b = Ok T -> (0 <= T)%Z ->
    exists tr o,
      SSNModel.opto_frame self os opsin = Ok o /\
      SSNModel.run_trial self vs os d b opsin = Ok tr /\
      forall t, (t < Z.to_nat T)%nat ->
        exists s,
          Trajectory.state_after self
            (VisualStimulus.generate_input vs (W, H)) o (S t) (zeros W H)
          = Ok s /\
          forall i j, (i < W)%nat -> (j < H)%nat -> get3 tr i j t = get s i j.
Proof.
  intros self vs os d b opsin W H T Hsize HW HH Hom Hops HT HT0.
  destruct (opto_frame_shape self os opsin W H HW HH Hom Hops) as [o [Ho Hso]].
  destruct (trial_loop_slices self (VisualStimulus.generate_input vs (W, H)) o
              W H (Z.to_nat T) HW HH (shape_visual vs W H HW) Hso
              (Z.to_nat T) 0%nat (zeros W H)
              (tabulate3 W H (Z.to_nat T) (fun _ _ _ => 0)))
    as [tr [Hrun [_ Hsl]]].
  { now apply shape_tabulate. }
  { apply rect3_tabulate3. }
  { lia. }
  exists tr, o. split; [exact Ho|]. split.
  - unfold SSNModel.run_trial. rewrite HT. cbn [bind]. unfold zeros3.
    destruct (Z.ltb_spec T 0) as [Hneg|_]; [lia|]. cbn [bind].
    rewrite Ho. cbn [bind]. rewrite Hsize. exact Hrun.
  - intros t Ht.
    destruct (Hsl 0%nat 0%nat t HW HH Ht) as [Hin _].
    destruct (Hin ltac:(lia)) as [s [Hs _]].
    exists s. split; [now rewrite Nat.sub_0_r in Hs|].
    intros i j Hi Hj.
    destruct (Hsl i j t Hi Hj Ht) as [Hin' _].
    destruct (Hin' ltac:(lia)) as [s' [Hs' Hget]].
    rewrite Hs in Hs'. injection Hs' as <-. exact Hget.
Qed.

Lemma run_trial_slices_are_states_witness :
  exists tr o,
    SSNModel.opto_frame EndToEnd.model EndToEnd.opto_stim None = Ok o /\
    SSNModel.run_trial EndToEnd.model EndToEnd.visual_stim EndToEnd.opto_stim
      Main.trial_duration Main.bin_size None = Ok tr /\
    forall t, (t < Z.to_nat 2)%nat ->
      exists s,
        Trajectory.state_after EndToEnd.model
          (VisualStimulus.generate_input EndToEnd.visual_stim (8%nat, 8%nat))
          o (S t) (zeros 8 8)
        = Ok s /\
        forall i j, (i < 8)%nat -> (j < 8)%nat -> get3 tr i j t = get s i j.
Proof.
  apply (run_trial_slices_are_states EndToEnd.model EndToEnd.visual_stim
           EndToEnd.opto_stim Main.trial_duration Main.bin_size None 8 8 2).
  - reflexivity.
  - lia.
  - lia.
  - apply rect_tabulate.
  - exact I.
  - vm_compute. reflexivity.
  - lia.
Defined.

(** On well-shaped inputs [run_trial] is its stepping loop on the two
    generated frames. *)
Lemma run_trial_as_loop self vs os d b opsin W H T :
  SSNModel.size self = (W, H) -> (0 < W)%nat -> (0 < H)%nat ->
  rect W H (SSNModel.orientation_map self) ->
  match opsin with Some m => rect W H m | None => True end ->
  SSNModel.time_bins d b = Ok T -> (0 <= T)%Z ->
  exists o,
    SSNModel.opto_frame self os opsin = Ok o /\ shape o = (W, H) /\
    SSNModel.run_trial self vs os d b opsin =
    SSNModel.trial_loop self (VisualStimulus.generate_input vs (W, H)) o
      (seq 0 (Z.to_nat T)) (zeros W H)
      (tabulate3 W H (Z.to_nat T) (fun _ _ _ => 0)).
Proof.
  intros Hsize HW HH Hom Hops HT HT0.
  destruct (opto_frame_shape self os opsin W H HW HH Hom Hops) as [o [Ho Hso]].
  exists o. split; [exact Ho|]. split; [exact Hso|].
  unfold SSNModel.run_trial. rewrite HT. cbn [bind]. unfold zeros3.
  destruct (Z.ltb_spec T 0) as [Hneg|_]; [lia|]. cbn [bind].
  rewrite Ho. cbn [bind]. now rewrite Hsize.
Qed.

(** X6. On well-shaped inputs with at least one time bin, the first time bin
    of the trace is the transfer of the external drive alone,
    [max(0, visual + opto) ** n]: the recurrent terms of the first step are
    convolutions of the all-zero state. *)
Theorem run_trial_first_bin :
  forall (self : SSNModel.t) (vs : VisualStimulus.t)
         (os : OptogeneticStimulus.t) (d b : float) (opsin : option grid)
         (W H : nat) (T : Z),
    SSNModel.size self = (W, H) -> (0 < W)%nat -> (0 < H)%nat ->
    rect W H (SSNModel.orientation_map self) ->
    match opsin with Some m => rect W H m | None => True end ->
    SSNModel.time_bins d b = Ok T -> (1 <= T)%Z ->
    exists tr o,
      SSNModel.opto_frame self os opsin = Ok o /\
      SSNModel.run_trial self vs os d b opsin = Ok tr /\
      forall i j, (i < W)%nat -> (j < H)%nat ->
        get3 tr i j 0 =
        power (Rmax 0 (get (VisualStimulus.generate_input vs (W, H)) i j
                       + get o i j))
              (SSNModel.n self).
Proof.
  intros self vs os d b opsin W H T Hsize HW HH Hom Hops HT HT1.
  destruct (run_trial_as_loop self vs os d b opsin W H T
              Hsize HW HH Hom Hops HT ltac:(lia)) as [o [Ho [Hso Hrun]]].
  set (v := VisualStimulus.generate_input vs (W, H)) in *.
  assert (Hv : shape v = (W, H)) by now apply shape_visual.
  destruct (trial_loop_slices self v o W H (Z.to_nat T) HW HH Hv Hso
              (Z.to_nat T) 0%nat (zeros W H)
              (tabulate3 W H (Z.to_nat T) (fun _ _ _ => 0)))
    as [tr [Hloop [_ Hsl]]].
  { now apply shape_tabulate. }
  { apply rect3_tabulate3. }
  { lia. }
  exists tr, o. split; [exact Ho|]. split; [now rewrite Hrun|].
  intros i j Hi Hj.
  destruct (Hsl i j 0%nat Hi Hj ltac:(lia)) as [Hin _].
  destruct (Hin ltac:(lia)) as [s [Hs ->]].
  cbn [Nat.sub Trajectory.state_after] in Hs.
  rewrite (step_cells self v o (zeros W H) W H HW Hv Hso) in Hs
    by now apply shape_tabulate.
  cbn [bind] in Hs. injection Hs as <-.
  rewrite get_tabulate by assumption.
  rewrite !convolve_zeros, !get_zeros.
  f_equal. f_equal. ring.
Qed.

Lemma run_trial_first_bin_witness :
  exists tr o,
    SSNModel.opto_frame EndToEnd.model EndToEnd.opto_stim None = Ok o /\
    SSNModel.run_trial EndToEnd.model EndToEnd.visual_stim EndToEnd.opto_stim
      Main.trial_duration Main.bin_size None = Ok tr /\
    forall i j, (i < 8)%nat -> (j < 8)%nat ->
      get3 tr i j 0 =
      power (Rmax 0 (get (VisualStimulus.generate_input EndToEnd.visual_stim
                            (8%nat, 8%nat)) i j
                     + get o i j))
            (SSNModel.n EndToEnd.model).
Proof.
  apply (run_trial_first_bin EndToEnd.model EndToEnd.visual_stim
           EndToEnd.opto_stim Main.trial_duration Main.bin_size None 8 8 2).
  - reflexivity.
  - lia.
  - lia.
  - apply rect_tabulate.
  - exact I.
  - vm_compute. reflexivity.
  - lia.
Defined.

(** X9. Shapes are checked by the first step only.  When the configured
    grid size and the orientation map disagree on an axis (neither length
    being 1) and there is at least one time bin, [run_trial] raises a
    [ValueError], from the sum of the visual and the optogenetic frame. *)
Theorem run_trial_shape_mismatch :
  forall (self : SSNModel.t) (vs : VisualStimulus.t)
         (os : OptogeneticStimulus.t) (d b : float)
         (W H W' H' : nat) (T : Z),
    SSNModel.size self = (W, H) ->
    rect W' H' (SSNModel.orientation_map self) ->
    (1 < W)%nat -> (1 < W')%nat -> (0 < H')%nat ->
    (W <> W' \/ (1 < H /\ 1 < H' /\ H <> H'))%nat ->
    SSNModel.time_bins d b = Ok T -> (1 <= T)%Z ->
    SSNModel.run_trial self vs os d b None = Raise ValueError.
Proof.
  intros self vs os d b W H W' H' T Hsize Hom HW HW' HH' Hne HT HT1.
  unfold SSNModel.run_trial. rewrite HT. cbn [bind]. unfold zeros3.
  destruct (Z.ltb_spec T 0) as [Hneg|_]; [lia|]. cbn [bind].
  destruct (opto_frame_shape self os None W' H' ltac:(lia) HH' Hom I)
    as [o [-> Hso]].
  cbn [bind]. rewrite Hsize. cbn [fst snd].
  destruct (Z.to_nat T) as [|T'] eqn:ET; [lia|].
  cbn [seq SSNModel.trial_loop]. unfold SSNModel.step, add, broadcast2.
  rewrite (shape_visual vs W H ltac:(lia)), Hso.
  unfold broadcast_dim.
  destruct (Nat.eqb_spec W W') as [EW|NW].
  - subst W'. destruct Hne as [Hne | [H1 [H1' Hne]]]; [lia|].
    destruct (Nat.eqb_spec W 1); [lia|]. cbn [bind].
    destruct (Nat.eqb_spec H H'); [lia|].
    destruct (Nat.eqb_spec H 1); [lia|].
    destruct (Nat.eqb_spec H' 1); [lia|]. reflexivity.
  - destruct (Nat.eqb_spec W 1); [lia|].
    destruct (Nat.eqb_spec W' 1); [lia|]. reflexivity.
Qed.

Lemma run_trial_shape_mismatch_witness :
  SSNModel.run_trial
    {| SSNModel.orientation_map := EndToEnd.orientation_field;
       SSNModel.size := (4%nat, 4%nat);
       SSNModel.sigma_e := 2; SSNModel.sigma_i := 1;
       SSNModel.alpha := 1; SSNModel.n := 2;
       SSNModel.exc_conn := SSNModel.exc_conn EndToEnd.model;
       SSNModel.inh_conn := SSNModel.inh_conn EndToEnd.model |}
    EndToEnd.visual_stim EndToEnd.opto_stim
    Main.trial_duration Main.bin_size None = Raise ValueError.
Proof.
  apply (run_trial_shape_mismatch _ _ _ _ _ 4 4 8 8 2).
  - reflexivity.
  - apply rect_tabulate.
  - lia.
  - lia.
  - lia.
  - left. lia.
  - vm_compute. reflexivity.
  - lia.
Defined.

(** For a base [x >= 0] the model's power is monotone in [x], for every
    exponent [n >= 0]. *)
Lemma power_monotone (x y n : R) :
  0 <= n -> 0 <= x <= y -> power x n <= power y n.
Proof.
  intros Hn [Hx Hxy]. unfold power.
  destruct (Req_EM_T x 0) as [->|Hx0]; destruct (Req_EM_T y 0) as [->|Hy0].
  - lra.
  - destruct (Req_EM_T n 0) as [->|Hn0].
    + rewrite Rpower_O by lra. lra.
    + left. unfold Rpower. apply exp_pos.
  - lra.
  - apply Rle_Rpower_l; [exact Hn | lra].
Qed.

(** X11. The transfer function is monotone and rectifying: for an exponent
    [n > 0] and two inputs of one shape with [A <= B] cell by cell, every
    cell of [transfer(A)] is at most the cell of [transfer(B)], and a cell
    whose input is [<= 0] is mapped to 0. *)
Theorem supralinear_transfer_function_monotone :
  forall (self : SSNModel.t) (A B : grid) (W H i j : nat),
    0 < SSNModel.n self ->
    rect W H A -> rect W H B ->
    (forall i' j', (i' < W)%nat -> (j' < H)%nat -> get A i' j' <= get B i' j') ->
    (i < W)%nat -> (j < H)%nat ->
    get (SSNModel.supralinear_transfer_function self A) i j <=
    get (SSNModel.supralinear_transfer_function self B) i j /\
    (get A i j <= 0 ->
     get (SSNModel.supralinear_transfer_function self A) i j = 0).
Proof.
  intros self A B W H i j Hn HA HB Hle Hi Hj.
  unfold SSNModel.supralinear_transfer_function.
  rewrite (rect_tabulate_get _ _ _ HA), (rect_tabulate_get _ _ _ HB).
  rewrite !map_grid_tabulate, !get_tabulate by assumption.
  split.
  - apply power_monotone; [lra|]. split; [apply Rmax_l|].
    apply Rle_max_compat_l. now apply Hle.
  - intros Hneg. rewrite Rmax_left by exact Hneg.
    rewrite <- (Rmax_left 0 0) at 1 by lra. now apply power_0.
Qed.

Lemma supralinear_transfer_function_monotone_witness :
  get (SSNModel.supralinear_transfer_function EndToEnd.model [[-1; 2]]) 0 0 <=
  get (SSNModel.supralinear_transfer_function EndToEnd.model [[0; 3]]) 0 0 /\
  (get [[-1; 2]] 0 0 <= 0 ->
   get (SSNModel.supralinear_transfer_function EndToEnd.model [[-1; 2]]) 0 0
   = 0).
Proof.
  apply (supralinear_transfer_function_monotone EndToEnd.model
           [[-1; 2]] [[0; 3]] 1 2 0 0).
  - simpl. lra.
  - split; [reflexivity | repeat constructor].
  - split; [reflexivity | repeat constructor].
  - intros i j Hi Hj.
    destruct i as [|i]; [|lia].
    destruct j as [|[|j]]; [| |lia]; unfold get; simpl; lra.
  - lia.
  - lia.
Defined.

End Trajectories.

(** ** Further properties of the connectivity kernels *)

Section KernelFacts.

Import Np.
Open Scope R_scope.

(** X12. Kernel construction has two error outcomes: on a field with both
    axes longer than 1 and of different lengths the distance array, of the
    transposed shape, does not broadcast against the similarity array and
    [create_ssn_connectivity] raises a [ValueError]; on a field without rows
    the lookup of the center raises an [IndexError].  [SSNModel.__init__]
    fails in the same way. *)
Theorem create_ssn_connectivity_errors :
  forall (om : grid) (r c : nat) (size : nat * nat)
         (sigma_e sigma_i alpha n : R),
    rect r c om -> (1 < r)%nat -> (1 < c)%nat -> r <> c ->
    SSNModel.create_ssn_connectivity om sigma_e sigma_i = Raise ValueError /\
    SSNModel.init om size sigma_e sigma_i alpha n = Raise ValueError /\
    SSNModel.create_ssn_connectivity [] sigma_e sigma_i = Raise IndexError /\
    SSNModel.init [] size sigma_e sigma_i alpha n = Raise IndexError.
Proof.
  intros om r c size sigma_e sigma_i alpha n Hrect Hr Hc Hne.
  assert (Hcreate : SSNModel.create_ssn_connectivity om sigma_e sigma_i
                    = Raise ValueError).
  { unfold SSNModel.create_ssn_connectivity.
    now rewrite (unnormalized_kernels_shape_error om r c). }
  split; [exact Hcreate|]. split.
  - unfold SSNModel.init. now rewrite Hcreate.
  - split; reflexivity.
Qed.

Lemma create_ssn_connectivity_errors_witness :
  SSNModel.create_ssn_connectivity [[0; 10; 20]; [30; 40; 50]] 2 1
    = Raise ValueError /\
  SSNModel.init [[0; 10; 20]; [30; 40; 50]] (2%nat, 3%nat) 2 1 1 2
    = Raise ValueError /\
  SSNModel.create_ssn_connectivity [] 2 1 = Raise IndexError /\
  SSNModel.init [] (2%nat, 3%nat) 2 1 1 2 = Raise IndexError.
Proof.
  apply (create_ssn_connectivity_errors [[0; 10; 20]; [30; 40; 50]] 2 3).
  - split; [reflexivity | repeat constructor].
  - lia.
  - lia.
  - lia.
Defined.

Lemma normalize_tabulate r c f :
  SSNModel.normalize (tabulate r c f) =
  tabulate r c (fun i j => f i j / sum (tabulate r c f)).
Proof. unfold SSNModel.normalize. apply map_grid_tabulate. Qed.

(** The kernels that construction returns, cell by cell. *)
Lemma create_ssn_connectivity_cells om r c sigma_e sigma_i :
  rect r c om -> (0 < r)%nat -> (0 < c)%nat ->
  r = c \/ r = 1%nat \/ c = 1%nat ->
  SSNModel.create_ssn_connectivity om sigma_e sigma_i =
  Ok (SSNModel.normalize
        (tabulate (Nat.max r c) (Nat.max r c)
                  (SSNModel.kernel_weight om r c sigma_e)),
      SSNModel.normalize
        (tabulate (Nat.max r c) (Nat.max r c)
                  (SSNModel.kernel_weight om r c sigma_i))).
Proof.
  intros Hrect Hr Hc Hb. unfold SSNModel.create_ssn_connectivity.
  now rewrite (unnormalized_kernels_cells om r c).
Qed.

Lemma normalized_kernel_bounds om r c sigma :
  (0 < r)%nat -> (0 < c)%nat -> r = c \/ r = 1%nat \/ c = 1%nat ->
  0 < sigma ->
  let k := SSNModel.normalize
             (tabulate (Nat.max r c) (Nat.max r c)
                       (SSNModel.kernel_weight om r c sigma)) in
  rect (Nat.max r c) (Nat.max r c) k /\
  all_cells (fun v => 0 <= v <= 1) k /\
  all_cells (fun v => v <= get k (Nat.max r c / 2) (Nat.max r c / 2)) k.
Proof.
  intros Hr Hc Hb Hs k. unfold k. rewrite normalize_tabulate.
  set (s := sum _).
  assert (Hsum : 1 <= s) by now apply kernel_sum_ge_1.
  assert (Hinv : 0 < / s <= 1).
  { split; [apply Rinv_0_lt_compat; lra|].
    rewrite <- Rinv_1. apply Rinv_le_contravar; lra. }
  assert (Hmid : (Nat.max r c / 2 < Nat.max r c)%nat)
    by (apply Nat.Div0.div_lt_upper_bound; lia).
  split; [apply rect_tabulate|]. split.
  - apply all_cells_tabulate. intros i j _ _.
    pose proof (kernel_weight_bounds om r c sigma i j Hs).
    unfold Rdiv. nra.
  - rewrite get_tabulate by exact Hmid.
    rewrite kernel_weight_center by assumption.
    apply all_cells_tabulate. intros i j _ _.
    pose proof (kernel_weight_bounds om r c sigma i j Hs).
    unfold Rdiv. nra.
Qed.

(** X13. The kernels that [create_ssn_connectivity] returns are square, of
    side [max r c] for a field of shape [(r, c)]; every weight lies in
    [[0, 1]] and no weight exceeds the one of the center cell. *)
Theorem create_ssn_connectivity_weights :
  forall (om : grid) (r c : nat) (sigma_e sigma_i : R),
    rect r c om -> (0 < r)%nat -> (0 < c)%nat ->
    r = c \/ r = 1%nat \/ c = 1%nat ->
    0 < sigma_e -> 0 < sigma_i ->
    exists ke ki,
      SSNModel.create_ssn_connectivity om sigma_e sigma_i = Ok (ke, ki) /\
      rect (Nat.max r c) (Nat.max r c) ke /\
      rect (Nat.max r c) (Nat.max r c) ki /\
      all_cells (fun v => 0 <= v <= 1) ke /\
      all_cells (fun v => 0 <= v <= 1) ki /\
      all_cells (fun v => v <= get ke (Nat.max r c / 2) (Nat.max r c / 2)) ke /\
      all_cells (fun v => v <= get ki (Nat.max r c / 2) (Nat.max r c / 2)) ki.
Proof.
  intros om r c sigma_e sigma_i Hrect Hr Hc Hb He Hi.
  eexists. eexists.
  split; [now apply (create_ssn_connectivity_cells om r c)|].
  destruct (normalized_kernel_bounds om r c sigma_e Hr Hc Hb He) as [? [? ?]].
  destruct (normalized_kernel_bounds om r c sigma_i Hr Hc Hb Hi) as [? [? ?]].
  repeat (split; [assumption|]). assumption.
Qed.

Lemma create_ssn_connectivity_weights_witness :
  exists ke ki,
    SSNModel.create_ssn_connectivity [[0; 90]; [45; 135]] 2 1 = Ok (ke, ki) /\
    rect (Nat.max 2 2) (Nat.max 2 2) ke /\
    rect (Nat.max 2 2) (Nat.max 2 2) ki /\
    all_cells (fun v => 0 <= v <= 1) ke /\
    all_cells (fun v => 0 <= v <= 1) ki /\
    all_cells (fun v => v <= get ke (Nat.max 2 2 / 2) (Nat.max 2 2 / 2)) ke /\
    all_cells (fun v => v <= get ki (Nat.max 2 2 / 2) (Nat.max 2 2 / 2)) ki.
Proof.
  apply (create_ssn_connectivity_weights [[0; 90]; [45; 135]] 2 2 2 1).
  - split; [reflexivity | repeat constructor].
  - lia.
  - lia.
  - left. reflexivity.
  - lra.
  - lra.
Defined.

Lemma kernel_weight_sigma_monotone om r c s1 s2 i j :
  0 < s1 <= s2 ->
  SSNModel.kernel_weight om r c s1 i j <= SSNModel.kernel_weight om r c s2 i j.
Proof.
  intros [H1 H12]. unfold SSNModel.kernel_weight.
  set (d := sqrt _). set (a := deg2rad _).
  assert (Hcos : 0 <= cos a ^ 2) by (simpl; nra).
  apply Rmult_le_compat_r; [exact Hcos|].
  assert (Hd : 0 <= d ^ 2) by (simpl; nra).
  assert (Hinv : / (2 * s2 ^ 2) <= / (2 * s1 ^ 2)).
  { apply Rinv_le_contravar; nra. }
  assert (Hle : - d ^ 2 / (2 * s1 ^ 2) <= - d ^ 2 / (2 * s2 ^ 2)).
  { unfold Rdiv. nra. }
  destruct Hle as [Hlt | Heq].
  - left. now apply exp_increasing.
  - rewrite Heq. lra.
Qed.

Lemma sum_tabulate_le r c f g :
  (forall i j, (i < r)%nat -> (j < c)%nat -> f i j <= g i j) ->
  sum (tabulate r c f) <= sum (tabulate r c g).
Proof.
  intros H.
  assert (Hlist : forall (l : list nat) (u v : nat -> R),
            (forall x, In x l -> u x <= v x) ->
            fold_right Rplus 0 (map u l) <= fold_right Rplus 0 (map v l)).
  { induction l as [|x l IH]; intros u v Huv; simpl; [lra|].
    assert (u x <= v x) by (apply Huv; now left).
    assert (fold_right Rplus 0 (map u l) <= fold_right Rplus 0 (map v l))
      by (apply IH; intros y Hy; apply Huv; now right).
    lra. }
  unfold sum, tabulate. rewrite 2 map_map.
  apply Hlist. intros i Hi. apply in_seq in Hi.
  apply Hlist. intros j Hj. apply in_seq in Hj.
  apply H; lia.
Qed.

(** X14. With [0 < sigma_i <= sigma_e] the excitatory kernel is the broader
    one: before normalization every excitatory weight is at least the
    inhibitory weight of the same cell, and after normalization the center
    weight of the inhibitory kernel is at least that of the excitatory
    kernel. *)
Theorem inhibitory_kernel_narrower :
  forall (om : grid) (r c : nat) (sigma_e sigma_i : R),
    rect r c om -> (0 < r)%nat -> (0 < c)%nat ->
    r = c \/ r = 1%nat \/ c = 1%nat ->
    0 < sigma_i <= sigma_e ->
    exists ue ui ke ki,
      SSNModel.unnormalized_kernels om sigma_e sigma_i = Ok (ue, ui) /\
      SSNModel.create_ssn_connectivity om sigma_e sigma_i = Ok (ke, ki) /\
      (forall i j, (i < Nat.max r c)%nat -> (j < Nat.max r c)%nat ->
                   get ui i j <= get ue i j) /\
      get ke (Nat.max r c / 2) (Nat.max r c / 2) <=
      get ki (Nat.max r c / 2) (Nat.max r c / 2).
Proof.
  intros om r c sigma_e sigma_i Hrect Hr Hc Hb Hs.
  assert (He : 0 < sigma_e) by lra. assert (Hi : 0 < sigma_i) by lra.
  do 4 eexists.
  split; [now apply (unnormalized_kernels_cells om r c)|].
  split; [now apply (create_ssn_connectivity_cells om r c)|].
  assert (Hmid : (Nat.max r c / 2 < Nat.max r c)%nat)
    by (apply Nat.Div0.div_lt_upper_bound; lia).
  split.
  - intros i j Hi' Hj'. rewrite 2 get_tabulate by assumption.
    now apply kernel_weight_sigma_monotone.
  - rewrite 2 normalize_tabulate, 2 get_tabulate by exact Hmid.
    rewrite 2 kernel_weight_center by assumption.
    pose proof (kernel_sum_ge_1 om r c sigma_i Hr Hc Hb Hi) as H1.
    assert (Hle : sum (tabulate (Nat.max r c) (Nat.max r c)
                         (SSNModel.kernel_weight om r c sigma_i)) <=
                  sum (tabulate (Nat.max r c) (Nat.max r c)
                         (SSNModel.kernel_weight om r c sigma_e))).
    { apply sum_tabulate_le. intros i j _ _.
      now apply kernel_weight_sigma_monotone. }
    unfold Rdiv. rewrite 2 Rmult_1_l. apply Rinv_le_contravar; lra.
Qed.

Lemma inhibitory_kernel_narrower_witness :
  exists ue ui ke ki,
    SSNModel.unnormalized_kernels [[0; 90]; [45; 135]] 2 1 = Ok (ue, ui) /\
    SSNModel.create_ssn_connectivity [[0; 90]; [45; 135]] 2 1 = Ok (ke, ki) /\
    (forall i j, (i < Nat.max 2 2)%nat -> (j < Nat.max 2 2)%nat ->
                 get ui i j <= get ue i j) /\
    get ke (Nat.max 2 2 / 2) (Nat.max 2 2 / 2) <=
    get ki (Nat.max 2 2 / 2) (Nat.max 2 2 / 2).
Proof.
  apply (inhibitory_kernel_narrower [[0; 90]; [45; 135]] 2 2 2 1).
  - split; [reflexivity | repeat constructor].
  - lia.
  - lia.
  - left. reflexivity.
  - lra.
Defined.

End KernelFacts.

(** ** Further properties of the stimuli *)

Section StimulusFacts.

Import Np.
Open Scope R_scope.

Lemma all_cells_concat (P : R -> Prop) (A : grid) :
  all_cells P A <-> (forall x, In x (concat A) -> P x).
Proof.
  unfold all_cells. split.
  - intros H x Hx. apply in_concat in Hx. destruct Hx as [row [Hrow Hx]].
    rewrite Forall_forall in H. specialize (H row Hrow).
    rewrite Forall_forall in H. now apply H.
  - intros H. apply Forall_forall. intros row Hrow.
    apply Forall_forall. intros x Hx. apply H.
    apply in_concat. now exists row.
Qed.

Lemma fold_left_Rmax_in (l : list R) (x : R) : In (fold_left Rmax l x) (x :: l).
Proof.
  revert x. induction l as [|y l IH]; intros x; simpl.
  - now left.
  - destruct (IH (Rmax x y)) as [H | H].
    + destruct (Rmax_case x y (fun z => z = x \/ z = y))
        as [Hx | Hy]; [now left | now right | | ].
      * left. rewrite <- H. now symmetry.
      * right. left. rewrite <- H. now symmetry.
    + right. right. exact H.
Qed.

(** [np.max] returns one of the cells, and no cell exceeds it. *)
Lemma amax_spec (A : grid) (m : R) :
  amax A = Ok m ->
  In m (concat A) /\ (forall y, In y (concat A) -> y <= m).
Proof.
  unfold amax. destruct (concat A) as [|x xs]; [discriminate|].
  intros [= <-]. split.
  - apply fold_left_Rmax_in.
  - intros y Hy. now apply fold_left_Rmax_ge.
Qed.

Lemma amax_raises (A : grid) : concat A = [] -> amax A = Raise ValueError.
Proof. intros H. unfold amax. now rewrite H. Qed.

Lemma amax_returns (A : grid) : concat A <> [] -> exists m, amax A = Ok m.
Proof.
  intros H. unfold amax. destruct (concat A) as [|x xs]; [now destruct H|].
  eexists. reflexivity.
Qed.

(** The cells of the scaled mask are 0 or [power]. *)
Lemma opto_input_cells os om y :
  In y (concat (map_grid (fun v => v * OptogeneticStimulus.power os)
                         (OptogeneticStimulus.mask os om))) ->
  y = 0 \/ (y = OptogeneticStimulus.power os /\
            In (OptogeneticStimulus.column_tuning os) (concat om)).
Proof.
  unfold OptogeneticStimulus.mask.
  rewrite map_grid_map_grid, concat_map_grid. intros Hy.
  apply in_map_iff in Hy. destruct Hy as [v [<- Hv]].
  destruct (Req_EM_T v (OptogeneticStimulus.column_tuning os)) as [->|_].
  - right. split; [ring | exact Hv].
  - left. ring.
Qed.

Lemma opto_input_nonempty os om :
  concat om <> [] ->
  concat (map_grid (fun v => v * OptogeneticStimulus.power os)
                   (OptogeneticStimulus.mask os om)) <> [].
Proof.
  unfold OptogeneticStimulus.mask.
  rewrite map_grid_map_grid, concat_map_grid.
  destruct (concat om); [intros H; now destruct H | discriminate].
Qed.

(** X16. When no cell of the orientation map equals [column_tuning],
    [generate_input] returns the all-zero grid of the map's shape, for every
    power and every grid size passed. *)
Theorem generate_input_no_match :
  forall (self : OptogeneticStimulus.t) (grid_size : nat * nat)
         (orientation_map : grid) (W H : nat),
    rect W H orientation_map -> (0 < W)%nat -> (0 < H)%nat ->
    ~ In (OptogeneticStimulus.column_tuning self) (concat orientation_map) ->
    OptogeneticStimulus.generate_input self grid_size orientation_map =
    Ok (zeros W H).
Proof.
  intros self gs om W H Hrect HW HH Hno.
  unfold OptogeneticStimulus.generate_input.
  assert (Hz : map_grid (fun v => v * OptogeneticStimulus.power self)
                        (OptogeneticStimulus.mask self om) = zeros W H).
  { unfold OptogeneticStimulus.mask. rewrite map_grid_map_grid.
    transitivity (map_grid (fun _ => 0) om).
    - apply map_grid_ext_in. intros x Hx.
      destruct (Req_EM_T x (OptogeneticStimulus.column_tuning self)) as [->|_];
        [now destruct Hno | ring].
    - rewrite (rect_tabulate_get _ _ _ Hrect) at 1.
      apply map_grid_tabulate. }
  rewrite Hz.
  assert (Hmax : amax (zeros W H) = Ok 0).
  { apply amax_attained.
    - destruct W as [|W]; [lia|]. destruct H as [|H]; [lia|].
      simpl. now left.
    - intros y Hy. apply in_concat_tabulate in Hy.
      destruct Hy as [i [j [_ [_ ->]]]]. lra. }
  rewrite Hmax. cbn [bind].
  destruct (Rlt_dec 0 0) as [Hlt|_]; [lra | reflexivity].
Qed.

Lemma generate_input_no_match_witness :
  OptogeneticStimulus.generate_input
    {| OptogeneticStimulus.column_tuning := 90;
       OptogeneticStimulus.num_columns := 10;
       OptogeneticStimulus.column_area := 50;
       OptogeneticStimulus.power := 1 |}
    (8%nat, 8%nat) EndToEnd.orientation_field =
  Ok (zeros 8 8).
Proof.
  apply generate_input_no_match.
  - apply rect_tabulate.
  - lia.
  - lia.
  - intros Hin. apply in_concat_tabulate in Hin.
    destruct Hin as [i [j [_ [_ Heq]]]]. simpl in Heq. lra.
Defined.

(** X17. [generate_input] raises exactly when the orientation map has no
    cell, and then it is the [ValueError] of [np.max]; on every other map it
    returns a grid of the map's shape. *)
Theorem generate_input_raises_iff_empty :
  forall (self : OptogeneticStimulus.t) (grid_size : nat * nat)
         (orientation_map : grid),
    (forall e,
       OptogeneticStimulus.generate_input self grid_size orientation_map
         = Raise e <->
       (e = ValueError /\ concat orientation_map = [])) /\
    (concat orientation_map <> [] ->
     exists o,
       OptogeneticStimulus.generate_input self grid_size orientation_map
         = Ok o /\
       shape o = shape orientation_map).
Proof.
  intros self gs om.
  assert (Hshape : forall f, shape (map_grid f (OptogeneticStimulus.mask self om))
                             = shape om).
  { intros f. unfold OptogeneticStimulus.mask. now rewrite 2 shape_map_grid. }
  split.
  - intros e. unfold OptogeneticStimulus.generate_input. split.
    + intros Hr.
      destruct (concat om) as [|x xs] eqn:Ec.
      * rewrite amax_raises in Hr.
        -- now injection Hr as <-.
        -- unfold OptogeneticStimulus.mask.
           now rewrite map_grid_map_grid, concat_map_grid, Ec.
      * destruct (amax_returns _ (opto_input_nonempty self om
                    ltac:(rewrite Ec; discriminate))) as [m Hm].
        rewrite Hm in Hr. cbn [bind] in Hr.
        destruct (Rlt_dec 0 m); discriminate.
    + intros [-> Hc]. rewrite amax_raises; [reflexivity|].
      unfold OptogeneticStimulus.mask.
      now rewrite map_grid_map_grid, concat_map_grid, Hc.
  - intros Hne. unfold OptogeneticStimulus.generate_input.
    destruct (amax_returns _ (opto_input_nonempty self om Hne)) as [m ->].
    cbn [bind]. destruct (Rlt_dec 0 m); eexists; (split; [reflexivity|]).
    + now rewrite shape_map_grid, Hshape.
    + apply Hshape.
Qed.

(** X18. For a power [>= 0] every cell of a frame that [generate_input]
    returns is 0 or 1. *)
Theorem generate_input_binary :
  forall (self : OptogeneticStimulus.t) (grid_size : nat * nat)
         (orientation_map o : grid),
    0 <= OptogeneticStimulus.power self ->
    OptogeneticStimulus.generate_input self grid_size orientation_map = Ok o ->
    all_cells (fun v => v = 0 \/ v = 1) o.
Proof.
  intros self gs om o Hp. unfold OptogeneticStimulus.generate_input.
  set (oi := map_grid _ (OptogeneticStimulus.mask self om)).
  destruct (amax oi) as [m|] eqn:Hm; [cbn [bind] | discriminate].
  destruct (amax_spec _ _ Hm) as [Hin Hle].
  destruct (Rlt_dec 0 m) as [Hpos|Hnpos]; intros [= <-].
  - apply all_cells_concat. intros x Hx.
    rewrite concat_map_grid in Hx. apply in_map_iff in Hx.
    destruct Hx as [y [<- Hy]].
    destruct (opto_input_cells _ _ _ Hin) as [Hm0 | [Hmp _]]; [lra|].
    destruct (opto_input_cells _ _ _ Hy) as [-> | [-> _]].
    + left. unfold Rdiv. ring.
    + right. rewrite Hmp. field. lra.
  - apply all_cells_concat. intros x Hx.
    destruct (opto_input_cells _ _ _ Hx) as [-> | [-> _]]; [now left|].
    left. specialize (Hle _ Hx). lra.
Qed.

Lemma generate_input_binary_witness :
  all_cells (fun v => v = 0 \/ v = 1) (zeros 8 8).
Proof.
  apply (generate_input_binary EndToEnd.opto_stim (8%nat, 8%nat)
           EndToEnd.orientation_field (zeros 8 8)).
  - simpl. lra.
  - apply (opto_zero_power _ _ _ 8 8).
    + reflexivity.
    + apply rect_tabulate.
    + lia.
    + lia.
Defined.

(** X19. A power [<= 0] is not normalized: on a map with at least one cell
    [generate_input] returns the mask scaled by the power, so a negative
    power gives a negative drive at the matching cells. *)
Theorem generate_input_nonpositive_power :
  forall (self : OptogeneticStimulus.t) (grid_size : nat * nat)
         (orientation_map : grid),
    OptogeneticStimulus.power self <= 0 ->
    concat orientation_map <> [] ->
    OptogeneticStimulus.generate_input self grid_size orientation_map =
    Ok (map_grid (fun v => v * OptogeneticStimulus.power self)
                 (OptogeneticStimulus.mask self orientation_map)).
Proof.
  intros self gs om Hp Hne. unfold OptogeneticStimulus.generate_input.
  destruct (amax_returns _ (opto_input_nonempty self om Hne)) as [m Hm].
  rewrite Hm. cbn [bind].
  destruct (amax_spec _ _ Hm) as [Hin _].
  destruct (Rlt_dec 0 m) as [Hpos|_]; [|reflexivity].
  destruct (opto_input_cells _ _ _ Hin) as [-> | [-> _]]; lra.
Qed.

Lemma generate_input_nonpositive_power_witness :
  OptogeneticStimulus.generate_input
    {| OptogeneticStimulus.column_tuning := 90;
       OptogeneticStimulus.num_columns := 10;
       OptogeneticStimulus.column_area := 50;
       OptogeneticStimulus.power := -2 |}
    (2%nat, 2%nat) [[0; 90]; [45; 135]] =
  Ok (map_grid (fun v => v * -2)
        (OptogeneticStimulus.mask
           {| OptogeneticStimulus.column_tuning := 90;
              OptogeneticStimulus.num_columns := 10;
              OptogeneticStimulus.column_area := 50;
              OptogeneticStimulus.power := -2 |}
           [[0; 90]; [45; 135]])).
Proof.
  apply (generate_input_nonpositive_power
           {| OptogeneticStimulus.column_tuning := 90;
              OptogeneticStimulus.num_columns := 10;
              OptogeneticStimulus.column_area := 50;
              OptogeneticStimulus.power := -2 |}).
  - simpl. lra.
  - simpl. discriminate.
Defined.

(** X20. The visual frame is bounded by the contrast: for an envelope size
    other than 0 the absolute value of every cell is at most the absolute
    value of the contrast. *)
Theorem visual_generate_input_bounded :
  forall (self : VisualStimulus.t) (grid_size : nat * nat),
    VisualStimulus.size self <> 0 ->
    all_cells (fun v => Rabs v <= Rabs (VisualStimulus.contrast self))
              (VisualStimulus.generate_input self grid_size).
Proof.
  intros self [rows cols] Hsize. unfold VisualStimulus.generate_input.
  apply all_cells_tabulate. intros i j _ _. cbv zeta.
  set (x := nth j _ 0). set (y := nth i _ 0).
  set (e := exp _).
  set (cs := cos (2 * PI * VisualStimulus.spatial_frequency self * _)).
  assert (He : 0 < e <= 1).
  { split; [apply exp_pos|]. apply exp_nonpos_le_1.
    assert (0 < 2 * VisualStimulus.size self ^ 2).
    { assert (0 < VisualStimulus.size self ^ 2).
      { simpl. rewrite Rmult_1_r.
        destruct (Rtotal_order (VisualStimulus.size self) 0) as [?|[?|?]];
          [nra | contradiction | nra]. }
      lra. }
    assert (0 <= x ^ 2 + y ^ 2) by (simpl; nra).
    unfold Rdiv. assert (0 < / (2 * VisualStimulus.size self ^ 2))
      by now apply Rinv_0_lt_compat.
    nra. }
  rewrite 2 Rabs_mult. rewrite (Rabs_pos_eq e) by lra.
  fold cs.
  assert (Hg : 0 <= Rabs cs <= 1).
  { split; [apply Rabs_pos|]. unfold cs. apply Rabs_le. apply COS_bound. }
  pose proof (Rabs_pos (VisualStimulus.contrast self)) as Ha.
  set (a := Rabs (VisualStimulus.contrast self)) in *.
  set (g := Rabs cs) in *.
  assert (0 <= e * g <= 1) by nra.
  nra.
Qed.

Lemma visual_generate_input_bounded_witness :
  all_cells (fun v => Rabs v <= Rabs (VisualStimulus.contrast EndToEnd.visual_stim))
            (VisualStimulus.generate_input EndToEnd.visual_stim (8%nat, 8%nat)).
Proof.
  apply visual_generate_input_bounded. simpl. lra.
Defined.

Lemma rect_generate_input os gs om W H o :
  rect W H om ->
  OptogeneticStimulus.generate_input os gs om = Ok o -> rect W H o.
Proof.
  intros Hom. unfold OptogeneticStimulus.generate_input.
  destruct (amax _) as [m|]; [cbn [bind] | discriminate].
  destruct (Rlt_dec 0 m); intros [= <-];
    unfold OptogeneticStimulus.mask; repeat apply rect_map_grid; exact Hom.
Qed.

(** X23. An opsin map of all ones is neutral: on a non-empty grid whose
    orientation map has the configured size, [run_trial] with that map
    returns exactly what it returns without an opsin map. *)
Theorem run_trial_opsin_ones :
  forall (self : SSNModel.t) (vs : VisualStimulus.t)
         (os : OptogeneticStimulus.t) (d b : float) (W H : nat),
    rect W H (SSNModel.orientation_map self) -> (0 < W)%nat ->
    SSNModel.run_trial self vs os d b (Some (tabulate W H (fun _ _ => 1))) =
    SSNModel.run_trial self vs os d b None.
Proof.
  intros self vs os d b W H Hom HW.
  assert (Hframe : SSNModel.opto_frame self os
                     (Some (tabulate W H (fun _ _ => 1))) =
                   SSNModel.opto_frame self os None).
  { unfold SSNModel.opto_frame.
    destruct (OptogeneticStimulus.generate_input os (SSNModel.size self)
                (SSNModel.orientation_map self)) as [o|] eqn:Hgen;
      [cbn [bind] | reflexivity].
    pose proof (rect_generate_input _ _ _ _ _ _ Hom Hgen) as Ho.
    unfold SSNModel.apply_opsin_map, multiply.
    rewrite (broadcast2_same_shape _ _ _ W H (rect_shape _ _ _ Ho HW))
      by now apply shape_tabulate.
    f_equal.
    etransitivity; [ | symmetry; apply (rect_tabulate_get _ _ _ Ho) ].
    apply tabulate_ext. intros i j Hi Hj.
    rewrite !bidx_same, get_tabulate by assumption. ring. }
  unfold SSNModel.run_trial. now rewrite Hframe.
Qed.

Lemma run_trial_opsin_ones_witness :
  SSNModel.run_trial EndToEnd.model EndToEnd.visual_stim EndToEnd.opto_stim
    Main.trial_duration Main.bin_size (Some (tabulate 8 8 (fun _ _ => 1))) =
  SSNModel.run_trial EndToEnd.model EndToEnd.visual_stim EndToEnd.opto_stim
    Main.trial_duration Main.bin_size None.
Proof.
  apply (run_trial_opsin_ones EndToEnd.model).
  - apply rect_tabulate.
  - lia.
Defined.

End StimulusFacts.

(** ** Cropping to the central region *)

Section Cropping.

Import Np.
Open Scope Z_scope.

(** A slice with bounds inside the list. *)
Lemma slice_inside {A : Type} (l : list A) (d : A) (lo n : nat) :
  (lo + n <= length l)%nat ->
  FileLoader.slice l (Z.of_nat lo) (Z.of_nat lo + Z.of_nat n) =
  map (fun i => nth (lo + i) l d) (seq 0 n).
Proof.
  intros Hle. unfold FileLoader.slice, FileLoader.slice_bound.
  destruct (Z.ltb_spec (Z.of_nat lo) 0) as [?|_]; [lia|].
  destruct (Z.ltb_spec (Z.of_nat lo + Z.of_nat n) 0) as [?|_]; [lia|].
  rewrite !Z.min_l by lia.
  replace (Z.to_nat (Z.of_nat lo + Z.of_nat n - Z.of_nat lo)) with n by lia.
  rewrite Nat2Z.id.
  apply (nth_ext _ _ d d).
  - rewrite length_firstn, length_skipn, length_map, length_seq. lia.
  - intros i Hi.
    rewrite length_firstn, length_skipn in Hi.
    rewrite nth_firstn.
    destruct (Nat.ltb_spec i n) as [Hin|?]; [|lia].
    rewrite nth_skipn.
    now rewrite (nth_map_seq (fun i => nth (lo + i) l d)) by exact Hin.
Qed.

(** The length of the central slice of an axis of length [len] equals
    [central_size] exactly when [central_size] is even, non-negative and at
    most [len]. *)
Lemma central_slice_length (len : nat) (cs : Z) :
  Z.of_nat (FileLoader.slice_length len
              (Z.of_nat len / 2 - cs / 2) (Z.of_nat len / 2 + cs / 2)) = cs <->
  0 <= cs /\ Z.even cs = true /\ cs <= Z.of_nat len.
Proof.
  unfold FileLoader.slice_length, FileLoader.slice_bound.
  set (L := Z.of_nat len). assert (HL : 0 <= L) by (unfold L; lia).
  pose proof (Z.div_mod L 2 ltac:(lia)) as DL.
  pose proof (Z.mod_pos_bound L 2 ltac:(lia)) as ML.
  pose proof (Z.div_mod cs 2 ltac:(lia)) as Dc.
  pose proof (Z.mod_pos_bound cs 2 ltac:(lia)) as Mc.
  rewrite Z.even_spec.
  split.
  - intros H.
    assert (Hev : cs = 2 * (cs / 2)).
    { destruct (Z.ltb_spec (L / 2 + cs / 2) 0);
        destruct (Z.ltb_spec (L / 2 - cs / 2) 0); lia. }
    split; [|split].
    + destruct (Z.ltb_spec (L / 2 + cs / 2) 0);
        destruct (Z.ltb_spec (L / 2 - cs / 2) 0); lia.
    + now exists (cs / 2).
    + destruct (Z.ltb_spec (L / 2 + cs / 2) 0);
        destruct (Z.ltb_spec (L / 2 - cs / 2) 0); lia.
  - intros [H0 [[m Hm] Hle]].
    destruct (Z.ltb_spec (L / 2 + cs / 2) 0);
      destruct (Z.ltb_spec (L / 2 - cs / 2) 0); lia.
Qed.

Lemma crop_success (map : grid) (r c : nat) (cs : Z) :
  rect r c map -> (0 < r)%nat ->
  0 <= cs -> Z.even cs = true -> cs <= Z.of_nat r -> cs <= Z.of_nat c ->
  FileLoader.crop_to_central_region map cs =
  Ok (tabulate (Z.to_nat cs) (Z.to_nat cs) (fun i j =>
        get map (Z.to_nat (Z.of_nat r / 2 - cs / 2) + i)
                (Z.to_nat (Z.of_nat c / 2 - cs / 2) + j))).
Proof.
  intros Hrect Hr H0 Hev Hler Hlec.
  unfold FileLoader.crop_to_central_region.
  rewrite (rect_shape _ _ _ Hrect Hr). cbn [fst snd].
  rewrite (proj2 (Z.eqb_eq _ _)) by (apply central_slice_length; auto).
  rewrite (proj2 (Z.eqb_eq _ _)) by (apply central_slice_length; auto).
  cbn [andb].
  apply Z.even_spec in Hev. destruct Hev as [h Hh].
  pose proof (Z.div_mod (Z.of_nat r) 2 ltac:(lia)).
  pose proof (Z.mod_pos_bound (Z.of_nat r) 2 ltac:(lia)).
  pose proof (Z.div_mod (Z.of_nat c) 2 ltac:(lia)).
  pose proof (Z.mod_pos_bound (Z.of_nat c) 2 ltac:(lia)).
  assert (Hh2 : cs / 2 = h).
  { subst cs. rewrite Z.mul_comm. apply Z.div_mul. lia. }
  rewrite Hh2 in *.
  set (lo_r := Z.to_nat (Z.of_nat r / 2 - h)).
  set (lo_c := Z.to_nat (Z.of_nat c / 2 - h)).
  set (k := Z.to_nat cs).
  destruct Hrect as [Hlen Hrows].
  replace (Z.of_nat r / 2 - h) with (Z.of_nat lo_r) by (unfold lo_r; lia).
  replace (Z.of_nat r / 2 + h) with (Z.of_nat lo_r + Z.of_nat k)
    by (unfold lo_r, k; lia).
  replace (Z.of_nat c / 2 - h) with (Z.of_nat lo_c) by (unfold lo_c; lia).
  replace (Z.of_nat c / 2 + h) with (Z.of_nat lo_c + Z.of_nat k)
    by (unfold lo_c, k; lia).
  rewrite (slice_inside map [] lo_r k) by (unfold lo_r, k; lia).
  rewrite map_map. unfold tabulate. apply (f_equal Ok).
  apply map_seq_ext. intros i Hi.
  assert (Hrow : length (nth (lo_r + i) map []) = c).
  { rewrite Forall_forall in Hrows. apply Hrows, nth_In.
    unfold lo_r, k in *. lia. }
  rewrite (slice_inside _ 0%R lo_c k) by (rewrite Hrow; unfold lo_c, k; lia).
  reflexivity.
Qed.

Lemma crop_failure (map : grid) (r c : nat) (cs : Z) :
  rect r c map -> (0 < r)%nat ->
  ~ (0 <= cs /\ Z.even cs = true /\ cs <= Z.of_nat r /\ cs <= Z.of_nat c) ->
  FileLoader.crop_to_central_region map cs = Raise ValueError.
Proof.
  intros Hrect Hr Hno.
  unfold FileLoader.crop_to_central_region.
  rewrite (rect_shape _ _ _ Hrect Hr). cbn [fst snd].
  destruct (Z.eqb_spec
              (Z.of_nat (FileLoader.slice_length r
                           (Z.of_nat r / 2 - cs / 2) (Z.of_nat r / 2 + cs / 2)))
              cs) as [Er|_]; [|reflexivity].
  destruct (Z.eqb_spec
              (Z.of_nat (FileLoader.slice_length c
                           (Z.of_nat c / 2 - cs / 2) (Z.of_nat c / 2 + cs / 2)))
              cs) as [Ec|_]; [|reflexivity].
  apply central_slice_length in Er, Ec.
  exfalso. apply Hno. tauto.
Qed.

(** X24. For an even [central_size] between 0 and both lengths of the map,
    [crop_to_central_region] returns the [central_size] x [central_size]
    block whose first cell is at row [rows // 2 - central_size // 2] and
    column [cols // 2 - central_size // 2] of the map. *)
Theorem crop_to_central_region_block :
  forall (map : grid) (r c : nat) (central_size : Z),
    rect r c map -> (0 < r)%nat ->
    0 <= central_size -> Z.even central_size = true ->
    central_size <= Z.of_nat r -> central_size <= Z.of_nat c ->
    FileLoader.crop_to_central_region map central_size =
    Ok (tabulate (Z.to_nat central_size) (Z.to_nat central_size) (fun i j =>
          get map (Z.to_nat (Z.of_nat r / 2 - central_size / 2) + i)
                  (Z.to_nat (Z.of_nat c / 2 - central_size / 2) + j))).
Proof.
  intros map r c cs Hrect Hr H0 Hev Hler Hlec. now apply crop_success.
Qed.

Lemma crop_to_central_region_block_witness :
  FileLoader.crop_to_central_region
    [[1; 2; 3; 4]; [5; 6; 7; 8]; [9; 10; 11; 12]; [13; 14; 15; 16]]%R 2 =
  Ok (tabulate (Z.to_nat 2) (Z.to_nat 2) (fun i j =>
        get [[1; 2; 3; 4]; [5; 6; 7; 8]; [9; 10; 11; 12]; [13; 14; 15; 16]]%R
            (Z.to_nat (Z.of_nat 4 / 2 - 2 / 2) + i)
            (Z.to_nat (Z.of_nat 4 / 2 - 2 / 2) + j))).
Proof.
  apply (crop_to_central_region_block _ 4 4 2).
  - split; [reflexivity | repeat constructor].
  - lia.
  - lia.
  - reflexivity.
  - lia.
  - lia.
Defined.

(** X25. [crop_to_central_region] raises its [ValueError] for every other
    [central_size]: a negative one, one larger than a length of the map,
    and every odd one, since the block that is cut has the even side
    [2 * (central_size // 2)]. *)
Theorem crop_to_central_region_rejects :
  forall (map : grid) (r c : nat) (central_size : Z),
    rect r c map -> (0 < r)%nat ->
    central_size < 0 \/ Z.odd central_size = true \/
    Z.of_nat r < central_size \/ Z.of_nat c < central_size ->
    FileLoader.crop_to_central_region map central_size = Raise ValueError.
Proof.
  intros map r c cs Hrect Hr Hbad.
  apply (crop_failure map r c cs Hrect Hr).
  intros [H0 [Hev [Hler Hlec]]].
  destruct Hbad as [?|[Hodd|[?|?]]]; try lia.
  rewrite <- Z.negb_even, Hev in Hodd. discriminate.
Qed.

Lemma crop_to_central_region_rejects_witness :
  FileLoader.crop_to_central_region
    [[1; 2; 3; 4]; [5; 6; 7; 8]; [9; 10; 11; 12]; [13; 14; 15; 16]]%R 3 =
  Raise ValueError.
Proof.
  apply (crop_to_central_region_rejects _ 4 4 3).
  - split; [reflexivity | repeat constructor].
  - lia.
  - right. left. reflexivity.
Defined.

(** X26. A map that [crop_to_central_region] returns for a positive
    [central_size] is square, so kernel construction on it never fails:
    [create_ssn_connectivity] returns two kernels of the same side. *)
Theorem crop_then_create_ssn_connectivity :
  forall (map cropped : grid) (r c : nat) (central_size : Z)
         (sigma_e sigma_i : R),
    rect r c map -> (0 < r)%nat -> 0 < central_size ->
    FileLoader.crop_to_central_region map central_size = Ok cropped ->
    rect (Z.to_nat central_size) (Z.to_nat central_size) cropped /\
    exists ke ki,
      SSNModel.create_ssn_connectivity cropped sigma_e sigma_i = Ok (ke, ki) /\
      rect (Z.to_nat central_size) (Z.to_nat central_size) ke /\
      rect (Z.to_nat central_size) (Z.to_nat central_size) ki.
Proof.
  intros map cropped r c cs sigma_e sigma_i Hrect Hr Hpos Hcrop.
  assert (Hcond : 0 <= cs /\ Z.even cs = true /\
                  cs <= Z.of_nat r /\ cs <= Z.of_nat c).
  { destruct (Z_le_dec 0 cs) as [H0|H0];
      [ destruct (Z.even cs) eqn:Hev;
        [ destruct (Z_le_dec cs (Z.of_nat r)) as [Hler|Hler];
          [ destruct (Z_le_dec cs (Z.of_nat c)) as [Hlec|Hlec];
            [ tauto | ] | ] | ] | ];
    rewrite (crop_failure map r c cs Hrect Hr) in Hcrop by
      (intros [? [? [? ?]]]; try lia; congruence);
    discriminate. }
  destruct Hcond as [H0 [Hev [Hler Hlec]]].
  rewrite (crop_success map r c cs Hrect Hr H0 Hev Hler Hlec) in Hcrop.
  injection Hcrop as <-.
  set (k := Z.to_nat cs). assert (Hk : (0 < k)%nat) by (unfold k; lia).
  split; [apply rect_tabulate|].
  do 2 eexists. split.
  - apply (create_ssn_connectivity_cells _ k k);
      [apply rect_tabulate | exact Hk | exact Hk | now left].
  - rewrite Nat.max_id. unfold SSNModel.normalize.
    split; apply rect_map_grid, rect_tabulate.
Qed.

Lemma crop_then_create_ssn_connectivity_witness :
  rect (Z.to_nat 2) (Z.to_nat 2)
       (tabulate 2 2 (fun i j =>
          get [[1; 2; 3; 4]; [5; 6; 7; 8]; [9; 10; 11; 12]; [13; 14; 15; 16]]%R
              (1 + i) (1 + j))) /\
  exists ke ki,
    SSNModel.create_ssn_connectivity
      (tabulate 2 2 (fun i j =>
         get [[1; 2; 3; 4]; [5; 6; 7; 8]; [9; 10; 11; 12]; [13; 14; 15; 16]]%R
             (1 + i) (1 + j))) 8 4 = Ok (ke, ki) /\
    rect (Z.to_nat 2) (Z.to_nat 2) ke /\
    rect (Z.to_nat 2) (Z.to_nat 2) ki.
Proof.
  apply (crop_then_create_ssn_connectivity
           [[1; 2; 3; 4]; [5; 6; 7; 8]; [9; 10; 11; 12]; [13; 14; 15; 16]]%R
           _ 4 4 2 8 4).
  - split; [reflexivity | repeat constructor].
  - lia.
  - lia.
  - apply (crop_success _ 4 4 2).
    + split; [reflexivity | repeat constructor].
    + lia.
    + lia.
    + reflexivity.
    + lia.
    + lia.
Defined.

End Cropping.

(** ** Conversion to fluorescence *)

Section Gcamp.

Import Np.
Open Scope R_scope.

(** X27. For spiking data of shape [(W, H, T)] and an expression map of
    shape [(W, H)], [convert_to_gcamp] returns an array of shape
    [(W, H, T)] whose cell [(i, j, k)] is the spiking cell times the
    expression of [(i, j)]; when neither input has a negative cell, as for a
    trace of [run_trial], neither has the fluorescence. *)
Theorem convert_to_gcamp_cells :
  forall (spiking_data : array3) (expression_map : grid) (W H T : nat),
    rect3 W H T spiking_data -> rect W H expression_map ->
    (0 < W)%nat -> (0 < H)%nat ->
    exists fluorescence,
      GcampConversion.convert_to_gcamp spiking_data expression_map
        = Ok fluorescence /\
      rect3 W H T fluorescence /\
      (forall i j k, (i < W)%nat -> (j < H)%nat -> (k < T)%nat ->
         get3 fluorescence i j k =
         get3 spiking_data i j k * get expression_map i j) /\
      (all_cells3 (Rle 0) spiking_data -> all_cells (Rle 0) expression_map ->
       all_cells3 (Rle 0) fluorescence).
Proof.
  intros sp ex W H T Hsp Hex HW HH.
  unfold GcampConversion.convert_to_gcamp.
  rewrite (rect3_shape3 _ _ _ _ Hsp HW HH), (rect_shape _ _ _ Hex HW).
  rewrite 2 broadcast_dim_same. cbn [bind].
  eexists. split; [reflexivity|].
  split; [apply rect3_tabulate3|]. split.
  - intros i j k Hi Hj Hk.
    rewrite get3_tabulate3 by assumption.
    now rewrite !bidx_same by assumption.
  - intros Hnn Hex0. apply all_cells3_tabulate3. intros i j k _ _ _.
    apply Rmult_le_pos.
    + apply (get3_all_cells3 (Rle 0)); [exact Hnn | lra].
    + apply (get_all_cells (Rle 0)); [exact Hex0 | lra].
Qed.

Lemma convert_to_gcamp_cells_witness :
  exists fluorescence,
    GcampConversion.convert_to_gcamp
      (tabulate3 2 2 3 (fun i j k => INR (i + j + k)))
      [[1; 2]; [0; 4]] = Ok fluorescence /\
    rect3 2 2 3 fluorescence /\
    (forall i j k, (i < 2)%nat -> (j < 2)%nat -> (k < 3)%nat ->
       get3 fluorescence i j k =
       get3 (tabulate3 2 2 3 (fun i j k => INR (i + j + k))) i j k
       * get [[1; 2]; [0; 4]] i j) /\
    (all_cells3 (Rle 0) (tabulate3 2 2 3 (fun i j k => INR (i + j + k))) ->
     all_cells (Rle 0) [[1; 2]; [0; 4]] ->
     all_cells3 (Rle 0) fluorescence).
Proof.
  apply (convert_to_gcamp_cells _ _ 2 2 3).
  - apply rect3_tabulate3.
  - split; [reflexivity | repeat constructor].
  - lia.
  - lia.
Defined.

End Gcamp.

(** ** The sweep over conditions and the lookup of a condition *)

Section SweepFacts.

Import Np.
Open Scope R_scope.

Lemma in_conditions contrasts orientations tunings c o t :
  In (c, o, t) (Sweep.conditions contrasts orientations tunings) <->
  In c contrasts /\ In o orientations /\ In t tunings.
Proof.
  unfold Sweep.conditions. rewrite in_flat_map. split.
  - intros [c' [Hc Hin]]. apply in_flat_map in Hin.
    destruct Hin as [o' [Ho Hin]]. apply in_map_iff in Hin.
    destruct Hin as [t' [Heq Ht]]. injection Heq as -> -> ->. tauto.
  - intros [Hc [Ho Ht]]. exists c. split; [exact Hc|].
    apply in_flat_map. exists o. split; [exact Ho|].
    apply in_map_iff. now exists t.
Qed.

Lemma length_conditions contrasts orientations tunings :
  length (Sweep.conditions contrasts orientations tunings) =
  (length contrasts * (length orientations * length tunings))%nat.
Proof.
  unfold Sweep.conditions.
  assert (Hinner : forall c : R,
            length (flat_map (fun o : R =>
                      map (fun t : R => (c, o, t)) tunings) orientations) =
            (length orientations * length tunings)%nat).
  { intros c. induction orientations as [|o os IHo]; [reflexivity|].
    cbn [flat_map length]. rewrite length_app, length_map, IHo. lia. }
  induction contrasts as [|c cs IH]; [reflexivity|].
  cbn [flat_map length]. rewrite length_app, IH, Hinner. lia.
Qed.

(** The first index of the comprehension list. *)
Lemma first_match {A : Type} (p : A -> bool) (l : list A) (s : nat) :
  match map fst (filter (fun im => p (snd im))
                        (combine (seq s (length l)) l)) with
  | [] => forall x, In x l -> p x = false
  | idx :: _ =>
      exists x, (s <= idx)%nat /\ nth_error l (idx - s) = Some x /\ p x = true
  end.
Proof.
  revert s. induction l as [|x l IH]; intros s.
  - simpl. intros x [].
  - cbn [length seq combine filter snd].
    destruct (p x) eqn:Hp.
    + cbn [map fst]. exists x. rewrite Nat.sub_diag. auto.
    + specialize (IH (S s)).
      destruct (map fst _) as [|idx rest].
      * intros y [<- | Hy]; [exact Hp | now apply IH].
      * destruct IH as [y [Hle [Hnth Hy]]].
        exists y. split; [lia|]. split; [|exact Hy].
        replace (idx - s)%nat with (S (idx - S s)) by lia. exact Hnth.
Qed.

(** The loop returns the traces of the conditions, in order, beside their
    records, or raises what the first failing trial raises. *)
Lemma run_conditions_spec model opsin conds :
  forall data0 meta0,
    (exists e,
       Sweep.run_conditions model opsin conds data0 meta0 = Raise e /\
       exists c o t, In (c, o, t) conds /\
                     Sweep.run_condition model opsin c o t = Raise e) \/
    (exists trs,
       Sweep.run_conditions model opsin conds data0 meta0 =
         Ok (data0 ++ trs, meta0 ++ map Sweep.record_of conds) /\
       Forall2 (fun cond tr =>
                  Sweep.run_condition model opsin
                    (fst (fst cond)) (snd (fst cond)) (snd cond) = Ok tr)
               conds trs).
Proof.
  induction conds as [|[[c o] t] conds IH]; intros data0 meta0.
  - right. exists []. cbn [Sweep.run_conditions map]. rewrite !app_nil_r.
    split; [reflexivity | constructor].
  - cbn [Sweep.run_conditions].
    destruct (Sweep.run_condition model opsin c o t) as [tr|e] eqn:Hrun.
    + cbn [bind].
      destruct (IH (data0 ++ [tr])
                   (meta0 ++ [{| Sweep.contrast := c; Sweep.orientation := o;
                                 Sweep.column_tuning := t |}]))
        as [[e [Hr [c' [o' [t' [Hin Hraise]]]]]] | [trs [Hr HF]]].
      * left. exists e. split; [exact Hr|].
        exists c', o', t'. split; [now right | exact Hraise].
      * right. exists (tr :: trs). split.
        -- rewrite Hr. cbn [map Sweep.record_of]. now rewrite <- !app_assoc.
        -- constructor; [exact Hrun | exact HF].
    + left. exists e. split; [reflexivity|].
      exists c, o, t. split; [now left | exact Hrun].
Qed.

Lemma matches_record_of cond c o t :
  Sweep.matches (Sweep.record_of cond) c o t = true <-> cond = (c, o, t).
Proof.
  destruct cond as [[c' o'] t']. unfold Sweep.matches, Sweep.record_of.
  cbn [Sweep.contrast Sweep.orientation Sweep.column_tuning].
  split.
  - destruct (Req_EM_T c' c) as [->|Hc]; [|discriminate].
    destruct (Req_EM_T o' o) as [->|Ho]; [|discriminate].
    destruct (Req_EM_T t' t) as [->|Ht]; [|discriminate].
    reflexivity.
  - intros [= -> -> ->].
    destruct (Req_EM_T c c) as [_|Hc]; [|now destruct Hc].
    destruct (Req_EM_T o o) as [_|Ho]; [|now destruct Ho].
    destruct (Req_EM_T t t) as [_|Ht]; [|now destruct Ht].
    reflexivity.
Qed.

(** X28. The sweep of [main.py] and the lookup of [plot_condition_grid]
    fit together.  Either a trial of some condition raises and the sweep
    raises the same exception, or the sweep returns one trace and one
    metadata record per condition, [len(contrasts) * len(orientations) *
    len(column_tunings)] of each, and for every condition of the three lists
    the lookup by its metadata finds the trace that [run_trial] returns for
    that condition, also when a list repeats a value. *)
Theorem sweep_lookup :
  forall (ssn_model : SSNModel.t) (opsin_map : grid)
         (contrasts orientations column_tunings : list R),
    (exists e,
       Sweep.sweep ssn_model opsin_map contrasts orientations column_tunings
         = Raise e /\
       exists c o t,
         In c contrasts /\ In o orientations /\ In t column_tunings /\
         Sweep.run_condition ssn_model opsin_map c o t = Raise e) \/
    (exists data meta,
       Sweep.sweep ssn_model opsin_map contrasts orientations column_tunings
         = Ok (data, meta) /\
       length data =
         (length contrasts * (length orientations * length column_tunings))%nat /\
       length meta = length data /\
       forall c o t,
         In c contrasts -> In o orientations -> In t column_tunings ->
         exists tr,
           Sweep.condition_trial data meta c o t = Ok tr /\
           Sweep.run_condition ssn_model opsin_map c o t = Ok tr).
Proof.
  intros model opsin C O T. unfold Sweep.sweep.
  set (conds := Sweep.conditions C O T).
  destruct (run_conditions_spec model opsin conds [] [])
    as [[e [Hr [c [o [t [Hin Hraise]]]]]] | [trs [Hr HF]]].
  - left. exists e. split; [exact Hr|]. exists c, o, t.
    apply in_conditions in Hin. tauto.
  - right. cbn [app] in Hr. exists trs, (map Sweep.record_of conds).
    split; [exact Hr|].
    pose proof (Forall2_length HF) as Hlen.
    split; [rewrite <- Hlen; apply length_conditions|].
    split; [now rewrite length_map|].
    intros c o t Hc Ho Ht.
    assert (Hin : In (c, o, t) conds) by (apply in_conditions; tauto).
    unfold Sweep.condition_trial, Sweep.condition_idx.
    pose proof (first_match (fun m => Sweep.matches m c o t)
                            (map Sweep.record_of conds) 0) as Hfirst.
    destruct (map fst _) as [|idx rest].
    + exfalso.
      assert (Hfalse : Sweep.matches (Sweep.record_of (c, o, t)) c o t = false).
      { apply Hfirst. now apply in_map. }
      rewrite (proj2 (matches_record_of (c, o, t) c o t) eq_refl) in Hfalse.
      discriminate.
    + destruct Hfirst as [m [_ [Hnth Hm]]]. rewrite Nat.sub_0_r in Hnth.
      cbn [bind].
      rewrite nth_error_map in Hnth.
      destruct (nth_error conds idx) as [cond|] eqn:Hcond; [|discriminate].
      injection Hnth as <-.
      apply matches_record_of in Hm. subst cond.
      assert (Htr : exists tr, nth_error trs idx = Some tr /\
                Sweep.run_condition model opsin c o t = Ok tr).
      { clear - HF Hcond. revert idx Hcond.
        induction HF as [|cond tr conds trs Hrun HF IH]; intros idx Hcond.
        - destruct idx; discriminate.
        - destruct idx as [|idx].
          + injection Hcond as ->. exists tr. split; [reflexivity | exact Hrun].
          + now apply IH. }
      destruct Htr as [tr [-> Hrun]]. now exists tr.
Qed.

End SweepFacts.

(** ** Errors of the time configuration *)

Section TimeConfigurationErrors.

Lemma SFcompare_refl_finite (s : bool) (m : positive) (e : Z) :
  SFcompare (S754_finite s m e) (S754_finite s m e) = Some Eq.
Proof.
  unfold SFcompare.
  destruct s; rewrite Z.compare_refl, Pos.compare_cont_refl; reflexivity.
Qed.

(** A float that differs from itself is a nan. *)
Lemma is_nan_Prim2SF (x : float) :
  PrimFloat.is_nan x = true <-> Prim2SF x = S754_nan.
Proof.
  unfold PrimFloat.is_nan. rewrite FloatAxioms.eqb_spec. unfold SFeqb.
  destruct (Prim2SF x) as [s | s | | s m e].
  - cbn. split; discriminate.
  - destruct s; cbn; split; discriminate.
  - cbn. split; reflexivity.
  - rewrite SFcompare_refl_finite. cbn. split; discriminate.
Qed.

Lemma is_infinity_Prim2SF (x : float) :
  PrimFloat.is_infinity x = true <-> exists s, Prim2SF x = S754_infinity s.
Proof.
  unfold PrimFloat.is_infinity.
  rewrite FloatAxioms.eqb_spec, FloatAxioms.abs_spec.
  change (Prim2SF infinity) with (S754_infinity false).
  destruct (Prim2SF x) as [s | s | | s m e]; cbn.
  - split; [discriminate | intros [? ?]; discriminate].
  - split; [intros _; now exists s | reflexivity].
  - split; [discriminate | intros [? ?]; discriminate].
  - split; [discriminate | intros [? ?]; discriminate].
Qed.

(** X10. A malformed time configuration stops [run_trial] at its first
    line, before the trace is allocated and whatever the other arguments
    are.  A bin size equal to zero ([0.0] or [-0.0]) raises the
    [ZeroDivisionError] of the float division, for every trial duration;
    otherwise an infinite quotient [trial_duration / bin_size] raises the
    [OverflowError] of [int()] and a nan quotient its [ValueError].  In
    every other case the number of time bins is computed. *)
Theorem run_trial_time_configuration_errors :
  forall (self : SSNModel.t) (vs : VisualStimulus.t)
         (os : OptogeneticStimulus.t) (trial_duration bin_size : float)
         (opsin : option Np.grid),
    (PrimFloat.eqb bin_size 0 = true ->
     SSNModel.run_trial self vs os trial_duration bin_size opsin
       = Raise ZeroDivisionError) /\
    (PrimFloat.eqb bin_size 0 = false ->
     PrimFloat.is_infinity (trial_duration / bin_size) = true ->
     SSNModel.run_trial self vs os trial_duration bin_size opsin
       = Raise OverflowError) /\
    (PrimFloat.eqb bin_size 0 = false ->
     PrimFloat.is_nan (trial_duration / bin_size) = true ->
     SSNModel.run_trial self vs os trial_duration bin_size opsin
       = Raise ValueError) /\
    (PrimFloat.eqb bin_size 0 = false ->
     PrimFloat.is_infinity (trial_duration / bin_size) = false ->
     PrimFloat.is_nan (trial_duration / bin_size) = false ->
     exists T : Z, SSNModel.time_bins trial_duration bin_size = Ok T).
Proof.
  intros self vs os d b opsin.
  unfold SSNModel.run_trial, SSNModel.time_bins, Py.truediv.
  repeat split.
  - intros ->. reflexivity.
  - intros -> Hinf. cbn [bind].
    apply is_infinity_Prim2SF in Hinf. destruct Hinf as [s Hs].
    unfold Py.int. now rewrite Hs.
  - intros -> Hnan. cbn [bind].
    apply is_nan_Prim2SF in Hnan.
    unfold Py.int. now rewrite Hnan.
  - intros -> Hinf Hnan. cbn [bind]. unfold Py.int.
    destruct (Prim2SF (d / b)) as [s | s | | s m e] eqn:E.
    + eexists. reflexivity.
    + assert (PrimFloat.is_infinity (d / b) = true)
        by (apply is_infinity_Prim2SF; now exists s).
      congruence.
    + assert (PrimFloat.is_nan (d / b) = true)
        by now apply is_nan_Prim2SF.
      congruence.
    + eexists. reflexivity.
Qed.

Lemma run_trial_time_configuration_errors_witness :
  SSNModel.run_trial EndToEnd.model EndToEnd.visual_stim EndToEnd.opto_stim
    infinity 0%float None = Raise ZeroDivisionError /\
  SSNModel.run_trial EndToEnd.model EndToEnd.visual_stim EndToEnd.opto_stim
    Main.trial_duration (-0)%float None = Raise ZeroDivisionError /\
  SSNModel.run_trial EndToEnd.model EndToEnd.visual_stim EndToEnd.opto_stim
    infinity Main.bin_size None = Raise OverflowError /\
  SSNModel.run_trial EndToEnd.model EndToEnd.visual_stim EndToEnd.opto_stim
    1e308%float 1e-308%float None = Raise OverflowError /\
  SSNModel.run_trial EndToEnd.model EndToEnd.visual_stim EndToEnd.opto_stim
    infinity infinity None = Raise ValueError /\
  SSNModel.run_trial EndToEnd.model EndToEnd.visual_stim EndToEnd.opto_stim
    nan Main.bin_size None = Raise ValueError /\
  exists T : Z, SSNModel.time_bins Main.trial_duration Main.bin_size = Ok T.
Proof.
  split; [|split; [|split; [|split; [|split; [|split]]]]].
  - apply (run_trial_time_configuration_errors EndToEnd.model
             EndToEnd.visual_stim EndToEnd.opto_stim infinity 0%float None).
    reflexivity.
  - apply (run_trial_time_configuration_errors EndToEnd.model
             EndToEnd.visual_stim EndToEnd.opto_stim Main.trial_duration
             (-0)%float None).
    reflexivity.
  - apply (run_trial_time_configuration_errors EndToEnd.model
             EndToEnd.visual_stim EndToEnd.opto_stim infinity Main.bin_size
             None); reflexivity.
  - apply (run_trial_time_configuration_errors EndToEnd.model
             EndToEnd.visual_stim EndToEnd.opto_stim 1e308%float 1e-308%float
             None); reflexivity.
  - apply (run_trial_time_configuration_errors EndToEnd.model
             EndToEnd.visual_stim EndToEnd.opto_stim infinity infinity
             None); reflexivity.
  - apply (run_trial_time_configuration_errors EndToEnd.model
             EndToEnd.visual_stim EndToEnd.opto_stim nan Main.bin_size
             None); reflexivity.
  - apply (run_trial_time_configuration_errors EndToEnd.model
             EndToEnd.visual_stim EndToEnd.opto_stim Main.trial_duration
             Main.bin_size None); reflexivity.
Defined.

End TimeConfigurationErrors.
